(** * Lifecycle of the MCP server entry point (src/mcp/server.ts)

    The entry point is one async function, [main], four listeners registered
    on [process], and the module body that registers two of them and calls
    [main].  The embedding keeps that shape:

    - the synchronous code runs in a state monad [M] over [State] (the file
      system, what was written to stderr and stdout, the external calls made,
      the listeners registered on [process]);
    - [process.exit] never returns: it is a result of its own, [Exit], that
      no [try]/[catch] intercepts;
    - [await e] suspends the running activation: the result [Suspend] carries
      the continuation, which the event loop resumes when the promise
      settles;
    - the event loop is a step function on [Proc] driven by the events the
      environment delivers: a promise settles, a signal arrives, an error
      escapes an opaque component. *)

From Stdlib Require Import ZArith Lia.
From stdpp Require Import base option list gmap strings.

Local Open Scope Z_scope.
Local Open Scope string_scope.

(** ** Data *)

(** An error, as [${error}] renders it in a template literal; a thrown value
    whose rendering itself throws (a [Symbol]) is outside the model. *)
Definition err : Type := string.

(** What a path names on disk.  Links are outside the model: every path
    names a file or a directory of its own. *)
Inductive node : Type :=
| File (content : string)
| Directory.

Inductive signal : Type := SIGINT | SIGTERM.

(** Event names used with [process.on]. *)
Inductive event_name : Type :=
| OnSignal (sg : signal)
| UncaughtException
| UnhandledRejection.

(** The four closures the source passes to [process.on]. *)
Inductive listener : Type :=
| SigintShutdown      (* server.ts 94-98 *)
| SigtermShutdown     (* server.ts 100-104 *)
| UncaughtHandler     (* server.ts 113-116 *)
| RejectionHandler.   (* server.ts 118-121 *)

(** Calls that leave this file: Node's [fs], the dynamic imports, and the two
    opaque components. *)
Inductive call : Type :=
| ImportModule (name : string)
| ExistsSync (p : string)
| StatSync (p : string)
| WriteFileSync (p data : string)
| UnlinkSync (p : string)
| NewDotAI
| InitializeWithoutCluster
| NewMCPServer
| Start
| Stop.

(** How an awaited promise settles. *)
Inductive outcome : Type :=
| Resolved
| Rejected (e : err).

#[global] Instance signal_eq_dec : EqDecision signal.
Proof. solve_decision. Defined.
#[global] Instance event_name_eq_dec : EqDecision event_name.
Proof. solve_decision. Defined.
#[global] Instance call_eq_dec : EqDecision call.
Proof. solve_decision. Defined.
#[global] Instance node_eq_dec : EqDecision node.
Proof. solve_decision. Defined.

(** The environment the process is started in: the value of
    [process.env.DOT_AI_SESSION_DIR] ([None] is [undefined]), the disk (what
    each path names), and for every synchronous external call whether the
    operating system or the component makes it throw (a permission, an I/O
    error, a constructor that fails).  A call that throws leaves the file
    system as it was. *)
Record World : Type := {
  session_dir_env : option string;
  disk : gmap string node;
  fault : call → option err;
}.

Record State : Type := {
  fs : gmap string node;
  stderr : list string;          (* one entry per write, oldest first *)
  stdout : list string;
  calls : list call;             (* oldest first *)
  listeners : list (event_name * listener);
}.

Definition set_fs (f : gmap string node → gmap string node) (s : State) : State :=
  {| fs := f (fs s); stderr := stderr s; stdout := stdout s;
     calls := calls s; listeners := listeners s |}.

Definition add_stderr (line : string) (s : State) : State :=
  {| fs := fs s; stderr := stderr s ++ [line]; stdout := stdout s;
     calls := calls s; listeners := listeners s |}.

Definition log (c : call) (s : State) : State :=
  {| fs := fs s; stderr := stderr s; stdout := stdout s;
     calls := calls s ++ [c]; listeners := listeners s |}.

Definition add_listener (ev : event_name) (l : listener) (s : State) : State :=
  {| fs := fs s; stderr := stderr s; stdout := stdout s;
     calls := calls s; listeners := listeners s ++ [(ev, l)] |}.

(** ** The monad *)

(** What running a piece of code gives: it returns, throws, exits the
    process, or is suspended at an [await] on the promise of call [c]. *)
Inductive res (A : Type) : Type :=
| Ret (s : State) (a : A)
| Throw (s : State) (e : err)
| Exit (s : State) (code : Z)
| Suspend (s : State) (c : call) (k : outcome → State → res A).

Arguments Ret {A} s a.
Arguments Throw {A} s e.
Arguments Exit {A} s code.
Arguments Suspend {A} s c k.

Definition M (A : Type) : Type := State → res A.

Fixpoint bind_res {A B : Type} (r : res A) (f : A → M B) : res B :=
  match r with
  | Ret s a => f a s
  | Throw s e => Throw s e
  | Exit s code => Exit s code
  | Suspend s c k => Suspend s c (λ o s', bind_res (k o s') f)
  end.

(** [try { body } catch (e) { handler e }]: only a throw is caught, also one
    raised after the body was suspended and resumed. *)
Fixpoint catch_res {A : Type} (r : res A) (handler : err → M A) : res A :=
  match r with
  | Ret s a => Ret s a
  | Throw s e => handler e s
  | Exit s code => Exit s code
  | Suspend s c k => Suspend s c (λ o s', catch_res (k o s') handler)
  end.

Definition ret {A : Type} (a : A) : M A := λ s, Ret s a.
Definition bind {A B : Type} (m : M A) (f : A → M B) : M B := λ s, bind_res (m s) f.
Definition try_catch {A : Type} (body : M A) (handler : err → M A) : M A :=
  λ s, catch_res (body s) handler.

Declare Scope js_scope.
Delimit Scope js_scope with js.
Notation "x <- m ;; k" := (bind m (λ x, k))
  (at level 100, m at next level, right associativity) : js_scope.
Notation "m ;; k" := (bind m (λ _, k))
  (at level 100, right associativity) : js_scope.
Local Open Scope js_scope.

(** [if (b) { m }] with no [else]. *)
Definition when (b : bool) (m : M unit) : M unit := if b then m else ret tt.

(** ** Primitives *)

Definition process_exit {A : Type} (code : Z) : M A := λ s, Exit s code.

(** [process.stderr.write(line + '\n')]: every write of the source is one
    line; the entry is kept without the newline. *)
Definition stderr_write (line : string) : M unit := λ s, Ret (add_stderr line s) tt.

Definition process_on (ev : event_name) (l : listener) : M unit :=
  λ s, Ret (add_listener ev l s) tt.

(** [await c()]: the call is made, the activation is suspended, and it is
    resumed with the outcome of the promise: a rejection is thrown at the
    [await].  A call that throws before it returns a promise behaves at the
    [await] like one that returns a rejected promise, and is modelled by
    [Rejected]. *)
Definition await (c : call) : M unit :=
  λ s, Suspend (log c s) c
         (λ o s', match o with Resolved => Ret s' tt | Rejected e => Throw s' e end).

(** JavaScript truthiness of [process.env.X]: [undefined] and the empty string
    are falsy. *)
Definition truthy (v : option string) : bool :=
  match v with
  | None => false
  | Some "" => false
  | Some _ => true
  end.

(** [`${v}`]. *)
Definition js_string (v : option string) : string :=
  match v with
  | None => "undefined"
  | Some s => s
  end.

(** ** [path.join] (Node's [path.posix])

    [path.join] joins its non-empty arguments with [/] and normalizes the
    result: empty segments and [.] are dropped, [..] removes the segment
    before it, a leading [/] is kept. *)

(** [isPosixPathSeparator]: the character [/], code 47. *)
Definition isPosixPathSeparator (c : Ascii.ascii) : bool :=
  Ascii.eqb c (Ascii.ascii_of_nat 47).

(** The segments of a path: what stands between its [/]. *)
Fixpoint path_segments (path : string) : list string :=
  match path with
  | EmptyString => [EmptyString]
  | String c rest =>
      if isPosixPathSeparator c then EmptyString :: path_segments rest
      else match path_segments rest with
           | seg :: segs => String c seg :: segs
           | [] => [String c EmptyString]
           end
  end.

(** One round of the loop of [normalizeString]: [res] holds the segments
    kept so far, the last one first. *)
Definition normalize_segment (allowAboveRoot : bool) (res : list string) (seg : string)
    : list string :=
  if decide (seg = EmptyString) then res
  else if decide (seg = ".") then res
  else if decide (seg = "..") then
    match res with
    | last :: before =>
        if decide (last = "..") then (if allowAboveRoot then ".." :: res else res)
        else before
    | [] => if allowAboveRoot then [".."] else []
    end
  else seg :: res.

Definition normalizeString (path : string) (allowAboveRoot : bool) : string :=
  String.concat "/"
    (rev (fold_left (normalize_segment allowAboveRoot) (path_segments path) [])).

Fixpoint ends_with_separator (path : string) : bool :=
  match path with
  | EmptyString => false
  | String c EmptyString => isPosixPathSeparator c
  | String _ rest => ends_with_separator rest
  end.

(** [path.normalize(path)] *)
Definition posix_normalize (path : string) : string :=
  match path with
  | EmptyString => "."
  | String c _ =>
      let isAbsolute := isPosixPathSeparator c in
      let trailingSeparator := ends_with_separator path in
      match normalizeString path (negb isAbsolute) with
      | EmptyString =>
          if isAbsolute then "/" else if trailingSeparator then "./" else "."
      | body =>
          (if isAbsolute then "/" else EmptyString) +:+ body
          +:+ (if trailingSeparator then "/" else EmptyString)
      end
  end.

(** [path.join(dir, name)] *)
Definition path_join (dir name : string) : string :=
  match dir, name with
  | EmptyString, EmptyString => "."
  | EmptyString, _ => posix_normalize name
  | _, EmptyString => posix_normalize dir
  | _, _ => posix_normalize (dir +:+ "/" +:+ name)
  end.

Definition isDirectory (n : node) : bool :=
  match n with
  | Directory => true
  | File _ => false
  end.

Definition dquote : string := String (Ascii.ascii_of_nat 34) EmptyString.

Section Program.
Context (w : World).

(** [fs.existsSync(p)] *)
Definition existsSync (p : string) : M bool := λ s,
  let s := log (ExistsSync p) s in
  match fault w (ExistsSync p) with
  | Some e => Throw s e
  | None => Ret s (bool_decide (is_Some (fs s !! p)))
  end.

(** [fs.statSync(p)] *)
Definition statSync (p : string) : M node := λ s,
  let s := log (StatSync p) s in
  match fault w (StatSync p) with
  | Some e => Throw s e
  | None =>
      match fs s !! p with
      | Some n => Ret s n
      | None => Throw s ("ENOENT: no such file or directory, stat '" +:+ p +:+ "'")
      end
  end.

(** [fs.writeFileSync(p, data)]: creates the file or replaces its content.
    The directory of [p] is not looked up: at the one call of the source it
    has just been checked. *)
Definition writeFileSync (p data : string) : M unit := λ s,
  let s := log (WriteFileSync p data) s in
  match fault w (WriteFileSync p data) with
  | Some e => Throw s e
  | None =>
      match fs s !! p with
      | Some Directory =>
          Throw s ("EISDIR: illegal operation on a directory, open '" +:+ p +:+ "'")
      | _ => Ret (set_fs (insert p (File data)) s) tt
      end
  end.

(** [fs.unlinkSync(p)] *)
Definition unlinkSync (p : string) : M unit := λ s,
  let s := log (UnlinkSync p) s in
  match fault w (UnlinkSync p) with
  | Some e => Throw s e
  | None =>
      match fs s !! p with
      | Some (File _) => Ret (set_fs (delete p) s) tt
      | Some Directory =>
          Throw s ("EPERM: operation not permitted, unlink '" +:+ p +:+ "'")
      | None => Throw s ("ENOENT: no such file or directory, unlink '" +:+ p +:+ "'")
      end
  end.

(** [new DotAI()] and [new MCPServer(dotAI, {...})] *)
Definition construct (c : call) : M unit := λ s,
  let s := log c s in
  match fault w c with
  | Some e => Throw s e
  | None => Ret s tt
  end.

(** ** [main] (server.ts 13-110) *)
Definition main : M unit :=
  try_catch
    (stderr_write "Validating MCP server configuration..." ;;
     let sessionDir := session_dir_env w in
     when (negb (truthy sessionDir))
       (stderr_write "FATAL: DOT_AI_SESSION_DIR environment variable is required" ;;
        stderr_write "Configuration:" ;;
        stderr_write "- Set DOT_AI_SESSION_DIR in .mcp.json env section" ;;
        stderr_write ("- Example: " +:+ dquote +:+ "DOT_AI_SESSION_DIR" +:+ dquote
                      +:+ ": " +:+ dquote +:+ "/tmp/dot-ai-sessions" +:+ dquote) ;;
        stderr_write "- Ensure the directory exists and is writable" ;;
        process_exit 1) ;;
     let sessionDir := js_string sessionDir in
     try_catch
       (await (ImportModule "fs") ;;
        await (ImportModule "path") ;;
        present <- existsSync sessionDir ;;
        when (negb present)
          (stderr_write ("FATAL: Session directory does not exist: " +:+ sessionDir) ;;
           stderr_write "Solution: Create the directory or update DOT_AI_SESSION_DIR" ;;
           process_exit 1) ;;
        stat <- statSync sessionDir ;;
        when (negb (isDirectory stat))
          (stderr_write ("FATAL: Session directory path is not a directory: " +:+ sessionDir) ;;
           stderr_write "Solution: Use a valid directory path in DOT_AI_SESSION_DIR" ;;
           process_exit 1) ;;
        let testFile := path_join sessionDir ".mcp-test-write" in
        try_catch
          (writeFileSync testFile "test" ;;
           unlinkSync testFile ;;
           stderr_write ("Session directory validated: " +:+ sessionDir))
          (λ writeError,
             stderr_write ("FATAL: Session directory is not writable: " +:+ sessionDir) ;;
             stderr_write "Solution: Fix directory permissions or use a different directory" ;;
             process_exit 1))
       (λ error,
          stderr_write ("FATAL: Session directory validation failed: " +:+ error) ;;
          process_exit 1) ;;
     construct NewDotAI ;;
     stderr_write "Initializing DevOps AI Toolkit..." ;;
     try_catch
       (await InitializeWithoutCluster ;;
        stderr_write "DevOps AI Toolkit initialized successfully" ;;
        stderr_write "Cluster connectivity will be checked when needed by individual tools")
       (λ initError,
          stderr_write ("FATAL: Failed to initialize DevOps AI Toolkit: " +:+ initError) ;;
          process_exit 1) ;;
     construct NewMCPServer ;;
     stderr_write "Starting DevOps AI Toolkit MCP server..." ;;
     await Start ;;
     stderr_write "DevOps AI Toolkit MCP server started successfully" ;;
     process_on (OnSignal SIGINT) SigintShutdown ;;
     process_on (OnSignal SIGTERM) SigtermShutdown)
    (λ error,
       stderr_write ("Failed to start DevOps AI Toolkit MCP server: " +:+ error) ;;
       process_exit 1).

(** ** The module body (server.ts 112-127) *)
Definition module_body : M unit :=
  process_on UncaughtException UncaughtHandler ;;
  process_on UnhandledRejection RejectionHandler ;;
  try_catch main
    (λ error,
       stderr_write ("Fatal error starting MCP server: " +:+ error) ;;
       process_exit 1).

End Program.

(** ** The listeners *)
Definition listener_body (l : listener) (arg : string) : M unit :=
  match l with
  | SigintShutdown =>
      stderr_write "Shutting down DevOps AI Toolkit MCP server..." ;;
      await Stop ;;
      process_exit 0
  | SigtermShutdown =>
      stderr_write "Shutting down DevOps AI Toolkit MCP server..." ;;
      await Stop ;;
      process_exit 0
  | UncaughtHandler =>
      stderr_write ("Uncaught exception in MCP server: " +:+ arg) ;;
      process_exit 1
  | RejectionHandler =>
      stderr_write ("Unhandled rejection in MCP server: " +:+ arg) ;;
      process_exit 1
  end.

(** The listeners declared [async]: what they throw rejects their promise. *)
Definition is_async (l : listener) : bool :=
  match l with
  | SigintShutdown | SigtermShutdown => true
  | UncaughtHandler | RejectionHandler => false
  end.

(** ** The process and its event loop *)

Inductive proc_status : Type :=
| Alive
| Exited (code : Z)
| Killed (sg : signal).

(** An activation suspended at an [await]: the call whose promise it waits
    for, and what it does when the promise settles. *)
Definition activation : Type := call * (outcome → State → res unit).

Record Proc : Type := {
  st : State;
  suspended : list activation;   (* oldest first *)
  status : proc_status;
}.

Definition with_status (x : proc_status) (p : Proc) : Proc :=
  {| st := st p; suspended := suspended p; status := x |}.

Definition listeners_for (ev : event_name) (s : State) : list listener :=
  (filter (λ el, el.1 = ev) (listeners s)).*2.

(** [emit]: the listeners run in registration order, each to its first
    [await] or to its end.  [on_throw] says what a throw of a synchronous
    listener leads to, [on_reject] what a rejection of an [async] one leads
    to. *)
Fixpoint run_listeners (on_throw on_reject : err → Proc → Proc)
    (ls : list listener) (arg : string) (p : Proc) : Proc :=
  match ls with
  | [] => p
  | l :: ls' =>
      match status p with
      | Alive =>
          match listener_body l arg (st p) with
          | Ret s _ =>
              run_listeners on_throw on_reject ls' arg
                {| st := s; suspended := suspended p; status := Alive |}
          | Exit s code =>
              {| st := s; suspended := suspended p; status := Exited code |}
          | Suspend s c k =>
              run_listeners on_throw on_reject ls' arg
                {| st := s; suspended := suspended p ++ [(c, k)]; status := Alive |}
          | Throw s e =>
              (if is_async l then on_reject else on_throw) e
                {| st := s; suspended := suspended p; status := Alive |}
          end
      | _ => p
      end
  end.

(** ['uncaughtException']: without a listener Node prints the error and
    exits with 1; a listener that throws makes it exit with 7. *)
Definition emit_uncaught (e : err) (p : Proc) : Proc :=
  let internal := λ _ q, with_status (Exited 7) q in
  match listeners_for UncaughtException (st p) with
  | [] => {| st := add_stderr e (st p); suspended := suspended p; status := Exited 1 |}
  | ls => run_listeners internal internal ls e p
  end.

(** ['unhandledRejection']: without a listener the rejection is raised as an
    uncaught exception. *)
Definition emit_unhandled (r : err) (p : Proc) : Proc :=
  match listeners_for UnhandledRejection (st p) with
  | [] => emit_uncaught r p
  | ls => run_listeners emit_uncaught emit_uncaught ls r p
  end.

Definition signal_name (sg : signal) : string :=
  match sg with
  | SIGINT => "SIGINT"
  | SIGTERM => "SIGTERM"
  end.

(** A signal: without a listener the default action ends the process. *)
Definition emit_signal (sg : signal) (p : Proc) : Proc :=
  match listeners_for (OnSignal sg) (st p) with
  | [] => with_status (Killed sg) p
  | ls => run_listeners emit_uncaught emit_unhandled ls (signal_name sg) p
  end.

(** What the event loop does with an activation that ran up to [r], the
    other suspended activations being [rest]: a throw rejects the promise of
    the async function, and nothing handles it. *)
Definition settle (rest : list activation) (r : res unit) : Proc :=
  match r with
  | Ret s _ => {| st := s; suspended := rest; status := Alive |}
  | Exit s code => {| st := s; suspended := rest; status := Exited code |}
  | Suspend s c k => {| st := s; suspended := (c, k) :: rest; status := Alive |}
  | Throw s e => emit_unhandled e {| st := s; suspended := rest; status := Alive |}
  end.

(** What the environment delivers to the process. *)
Inductive event : Type :=
| Settled (o : outcome)     (* the promise the oldest activation awaits settles *)
| Signal (sg : signal)
| Uncaught (e : err)        (* an error escapes an opaque component *)
| Unhandled (r : err).      (* a promise of an opaque component is rejected *)

Definition step (p : Proc) (ev : event) : Proc :=
  match status p with
  | Alive =>
      match ev with
      | Settled o =>
          match suspended p with
          | [] => p
          | (_, k) :: rest => settle rest (k o (st p))
          end
      | Signal sg => emit_signal sg p
      | Uncaught e => emit_uncaught e p
      | Unhandled r => emit_unhandled r p
      end
  | _ => p
  end.

Definition initial_state (w : World) : State :=
  {| fs := disk w; stderr := []; stdout := []; calls := []; listeners := [] |}.

(** Node loads the module: the body runs to the first [await] of [main]. *)
Definition start_process (w : World) : Proc :=
  settle [] (module_body w (initial_state w)).

Definition run (w : World) (evs : list event) : Proc :=
  fold_left step evs (start_process w).

(** The lifecycle state is not a variable of the source: it is where the
    process stands.  [main] is the only activation until it returns, and the
    call it is suspended at tells its stage; afterwards the process is
    resident, and shutting down once a signal listener awaits [stop()]. *)
Inductive LifecycleState : Type :=
| Validating | Initializing | Starting | Running | ShuttingDown | Terminated.

Definition lifecycle (p : Proc) : LifecycleState :=
  match status p with
  | Alive =>
      match suspended p with
      | [] => Running
      | (InitializeWithoutCluster, _) :: _ => Initializing
      | (Start, _) :: _ => Starting
      | (Stop, _) :: _ => ShuttingDown
      | _ => Validating
      end
  | _ => Terminated
  end.

(** Number of times call [c] was made. *)
Definition count (c : call) (s : State) : nat :=
  length (filter (λ x, x = c) (calls s)).

Arguments bind {A B} m f s /.
Arguments try_catch {A} body handler s /.
Arguments ret {A} a s /.
Arguments when b m /.
Arguments process_exit {A} code s /.
Arguments stderr_write line s /.
Arguments process_on ev l s /.
Arguments await c s /.
Arguments existsSync w p s /.
Arguments statSync w p s /.
Arguments writeFileSync w p data s /.
Arguments unlinkSync w p s /.
Arguments construct w c s /.

(** ** Vocabulary of the specification *)

(** The four preflight failures of the specification (section 4.1). *)
Inductive ValidationFailure : Type :=
| MissingConfig
| PathNotFound
| NotADirectory
| NotWritable.

(** The validator as the specification words it: four checks, in this order,
    the first that fails decides; [None] is success. *)
Definition preflight_spec (configured present is_dir writable : bool)
    : option ValidationFailure :=
  if negb configured then Some MissingConfig
  else if negb present then Some PathNotFound
  else if negb is_dir then Some NotADirectory
  else if negb writable then Some NotWritable
  else None.

(** The lines [main] writes for each failure (server.ts 21-25, 36-37, 44-45,
    56-57). *)
Definition diagnostic (f : ValidationFailure) (dir : string) : list string :=
  match f with
  | MissingConfig =>
      ["FATAL: DOT_AI_SESSION_DIR environment variable is required";
       "Configuration:";
       "- Set DOT_AI_SESSION_DIR in .mcp.json env section";
       "- Example: " +:+ dquote +:+ "DOT_AI_SESSION_DIR" +:+ dquote
         +:+ ": " +:+ dquote +:+ "/tmp/dot-ai-sessions" +:+ dquote;
       "- Ensure the directory exists and is writable"]
  | PathNotFound =>
      ["FATAL: Session directory does not exist: " +:+ dir;
       "Solution: Create the directory or update DOT_AI_SESSION_DIR"]
  | NotADirectory =>
      ["FATAL: Session directory path is not a directory: " +:+ dir;
       "Solution: Use a valid directory path in DOT_AI_SESSION_DIR"]
  | NotWritable =>
      ["FATAL: Session directory is not writable: " +:+ dir;
       "Solution: Fix directory permissions or use a different directory"]
  end.

(** The checks in the order of the source: the variable (0, not a call), the
    existence (1), the type (2), the probe (3). *)
Definition check_rank (c : call) : option nat :=
  match c with
  | ExistsSync _ => Some 1%nat
  | StatSync _ => Some 2%nat
  | WriteFileSync _ _ | UnlinkSync _ => Some 3%nat
  | _ => None
  end.

Definition failure_rank (f : ValidationFailure) : nat :=
  match f with
  | MissingConfig => 0%nat
  | PathNotFound => 1%nat
  | NotADirectory => 2%nat
  | NotWritable => 3%nat
  end.

(** Call [c] is not a check that comes after the one [f] names, and not a
    call of a later stage. *)
Definition not_after (f : ValidationFailure) (c : call) : bool :=
  match c with
  | ImportModule _ => true
  | NewDotAI | InitializeWithoutCluster | NewMCPServer | Start | Stop => false
  | _ =>
      match check_rank c with
      | Some r => bool_decide (r ≤ failure_rank f)%nat
      | None => true
      end
  end.

Definition session_dir (w : World) : string := js_string (session_dir_env w).

Definition probe_file (w : World) : string :=
  path_join (session_dir w) ".mcp-test-write".

(** The four inputs of the validator, read off the world. *)
Definition configured (w : World) : bool := truthy (session_dir_env w).

Definition path_exists (w : World) : bool :=
  bool_decide (is_Some (disk w !! session_dir w)).

Definition path_is_directory (w : World) : bool :=
  bool_decide (disk w !! session_dir w = Some Directory).

(** The probe file can be written and then deleted. *)
Definition probe_writable (w : World) : bool :=
  bool_decide (fault w (WriteFileSync (probe_file w) "test") = None
               ∧ disk w !! probe_file w ≠ Some Directory
               ∧ fault w (UnlinkSync (probe_file w)) = None).

(** The disk holds no entry that names the probe file, however its path is
    written. *)
Definition probe_absent (w : World) : Prop :=
  ∀ path, posix_normalize path = posix_normalize (probe_file w) →
          disk w !! path = None.

(** The existence check and the type check answer instead of throwing. *)
Definition checks_answer (w : World) : Prop :=
  fault w (ExistsSync (session_dir w)) = None
  ∧ fault w (StatSync (session_dir w)) = None.

Definition validating_line : string := "Validating MCP server configuration...".
Definition validated_line (w : World) : string :=
  "Session directory validated: " +:+ session_dir w.
Definition shutdown_notice : string := "Shutting down DevOps AI Toolkit MCP server...".

(** [n] awaited promises resolve one after the other: the two imports, the
    initialization, the start. *)
Definition resolved (n : nat) : list event := repeat (Settled Resolved) n.

Definition imports_loaded : list event := resolved 2.

(** Some prefix of the run has reached [Running]. *)
Definition reached_running (w : World) (evs : list event) : Prop :=
  ∃ pre, pre `prefix_of` evs ∧ lifecycle (run w pre) = Running.

(** Worlds used as concrete inputs. *)
Definition no_fault : call → option err := λ _, None.

Definition sessions_world : World :=
  {| session_dir_env := Some "/tmp/dot-ai-sessions";
     disk := {[ "/tmp/dot-ai-sessions" := Directory ]};
     fault := no_fault |}.

Definition unset_world : World :=
  {| session_dir_env := None; disk := ∅; fault := no_fault |}.

(** The variable names a file. *)
Definition file_world : World :=
  {| session_dir_env := Some "/etc/hosts";
     disk := {[ "/etc/hosts" := File "127.0.0.1 localhost" ]};
     fault := no_fault |}.

(** The session directory already holds an entry with the name of the probe. *)
Definition collision_world : World :=
  {| session_dir_env := Some "/tmp/dot-ai-sessions";
     disk := {[ "/tmp/dot-ai-sessions" := Directory;
                "/tmp/dot-ai-sessions/.mcp-test-write" := File "kept by a session" ]};
     fault := no_fault |}.

(** The variable is written with a trailing [/], and the session directory
    holds the probe file an earlier run has left. *)
Definition slash_world : World :=
  {| session_dir_env := Some "/tmp/dot-ai-sessions/";
     disk := {[ "/tmp/dot-ai-sessions/" := Directory;
                "/tmp/dot-ai-sessions/.mcp-test-write" := File "test" ]};
     fault := no_fault |}.

(** The probe can be written but not removed. *)
Definition sticky_world : World :=
  {| session_dir_env := Some "/tmp/dot-ai-sessions";
     disk := {[ "/tmp/dot-ai-sessions" := Directory ]};
     fault := λ c, match c with
                   | UnlinkSync _ => Some "EACCES: permission denied"
                   | _ => None
                   end |}.

(** [statSync] throws on a path [existsSync] has just reported. *)
Definition flaky_world : World :=
  {| session_dir_env := Some "/tmp/dot-ai-sessions";
     disk := {[ "/tmp/dot-ai-sessions" := Directory ]};
     fault := λ c, match c with
                   | StatSync _ => Some "EIO: i/o error, stat"
                   | _ => None
                   end |}.

(** ** Invariants of the two phases *)

Definition boot_listeners : list (event_name * listener) :=
  [(UncaughtException, UncaughtHandler); (UnhandledRejection, RejectionHandler)].

Definition all_listeners : list (event_name * listener) :=
  boot_listeners ++ [(OnSignal SIGINT, SigintShutdown); (OnSignal SIGTERM, SigtermShutdown)].

(** Until [main] returns: nothing on stdout, no [stop()], and only the two
    listeners of the module body. *)
Definition early (s : State) : Prop :=
  stdout s = [] ∧ count Stop s = 0%nat ∧ listeners s = boot_listeners.

(** How the process ends when event [ev] ends it before [main] returns. *)
Definition early_end (p q : Proc) (ev : event) : Prop :=
  early (st q) ∧
  match ev with
  | Signal sg => status q = Killed sg
  | _ => status q = Exited 1 ∧ (length (stderr (st p)) < length (stderr (st q)))%nat
  end.

(** The stage [main] is suspended at after [n] promises resolved. *)
Definition stage (n : nat) : LifecycleState :=
  match n with
  | 0%nat | 1%nat => Validating
  | 2%nat => Initializing
  | 3%nat => Starting
  | _ => Running
  end.

(** A signal listener suspended at [await mcpServer.stop()]. *)
Definition shutdown_activation (a : activation) : Prop :=
  a.1 = Stop ∧
  ∀ o s, a.2 o s = match o with Resolved => Exit s 0 | Rejected e => Throw s e end.

(** After [main] returned. *)
Definition late (p : Proc) : Prop :=
  stdout (st p) = [] ∧
  listeners (st p) = all_listeners ∧
  (status p = Alive →
     Forall shutdown_activation (suspended p) ∧
     count Stop (st p) = length (suspended p) ∧
     (suspended p ≠ [] → last (stderr (st p)) = Some shutdown_notice)).

(** How the process ends when event [ev] ends it after [main] returned. *)
Definition late_end (p q : Proc) (ev : event) : Prop :=
  stdout (st q) = [] ∧
  listeners (st q) = all_listeners ∧
  count Stop (st q) = count Stop (st p) ∧
  match ev with
  | Settled Resolved =>
      status q = Exited 0 ∧ suspended p ≠ [] ∧ st q = st p
  | Settled (Rejected e) =>
      status q = Exited 1 ∧ suspended p ≠ [] ∧
      stderr (st q) = (stderr (st p) ++ ["Unhandled rejection in MCP server: " +:+ e])%list
  | Signal _ => False
  | Uncaught e =>
      status q = Exited 1 ∧
      stderr (st q) = (stderr (st p) ++ ["Uncaught exception in MCP server: " +:+ e])%list
  | Unhandled r =>
      status q = Exited 1 ∧
      stderr (st q) = (stderr (st p) ++ ["Unhandled rejection in MCP server: " +:+ r])%list
  end.

(** ** The blocks of [main]

    For the proofs the body of [main] is cut at its [try] blocks and at its
    [await]s: each block and each continuation below is a piece of the text of
    [main], and [main_blocks], [start_process_configured] and the [k_]
    lemmas prove that [main] is their composition. *)

Section Blocks.
Context (w : World).

(** server.ts 21-26 *)
Definition missing_config : M unit :=
  stderr_write "FATAL: DOT_AI_SESSION_DIR environment variable is required" ;;
  stderr_write "Configuration:" ;;
  stderr_write "- Set DOT_AI_SESSION_DIR in .mcp.json env section" ;;
  stderr_write ("- Example: " +:+ dquote +:+ "DOT_AI_SESSION_DIR" +:+ dquote
                +:+ ": " +:+ dquote +:+ "/tmp/dot-ai-sessions" +:+ dquote) ;;
  stderr_write "- Ensure the directory exists and is writable" ;;
  process_exit 1.

(** server.ts 55-59 *)
Definition not_writable (sessionDir : string) (writeError : err) : M unit :=
  stderr_write ("FATAL: Session directory is not writable: " +:+ sessionDir) ;;
  stderr_write "Solution: Fix directory permissions or use a different directory" ;;
  process_exit 1.

(** server.ts 51-54 *)
Definition probe (sessionDir testFile : string) : M unit :=
  writeFileSync w testFile "test" ;;
  unlinkSync w testFile ;;
  stderr_write ("Session directory validated: " +:+ sessionDir).

(** server.ts 34-59: what follows the two imports inside the inner [try] *)
Definition checks (sessionDir : string) : M unit :=
  present <- existsSync w sessionDir ;;
  when (negb present)
    (stderr_write ("FATAL: Session directory does not exist: " +:+ sessionDir) ;;
     stderr_write "Solution: Create the directory or update DOT_AI_SESSION_DIR" ;;
     process_exit 1) ;;
  stat <- statSync w sessionDir ;;
  when (negb (isDirectory stat))
    (stderr_write ("FATAL: Session directory path is not a directory: " +:+ sessionDir) ;;
     stderr_write "Solution: Use a valid directory path in DOT_AI_SESSION_DIR" ;;
     process_exit 1) ;;
  let testFile := path_join sessionDir ".mcp-test-write" in
  try_catch (probe sessionDir testFile) (not_writable sessionDir).

(** server.ts 61-64 *)
Definition validation_failed (error : err) : M unit :=
  stderr_write ("FATAL: Session directory validation failed: " +:+ error) ;;
  process_exit 1.

(** server.ts 73-74 *)
Definition initialized : M unit :=
  stderr_write "DevOps AI Toolkit initialized successfully" ;;
  stderr_write "Cluster connectivity will be checked when needed by individual tools".

(** server.ts 75-78 *)
Definition init_failed (initError : err) : M unit :=
  stderr_write ("FATAL: Failed to initialize DevOps AI Toolkit: " +:+ initError) ;;
  process_exit 1.

(** server.ts 91-104 *)
Definition started : M unit :=
  stderr_write "DevOps AI Toolkit MCP server started successfully" ;;
  process_on (OnSignal SIGINT) SigintShutdown ;;
  process_on (OnSignal SIGTERM) SigtermShutdown.

(** server.ts 80-104 *)
Definition serve : M unit :=
  construct w NewMCPServer ;;
  stderr_write "Starting DevOps AI Toolkit MCP server..." ;;
  await Start ;;
  started.

(** server.ts 66-104: what follows the inner [try] statement *)
Definition boot : M unit :=
  construct w NewDotAI ;;
  stderr_write "Initializing DevOps AI Toolkit..." ;;
  try_catch (await InitializeWithoutCluster ;; initialized) init_failed ;;
  serve.

(** server.ts 106-109 *)
Definition start_failed (error : err) : M unit :=
  stderr_write ("Failed to start DevOps AI Toolkit MCP server: " +:+ error) ;;
  process_exit 1.

(** server.ts 124-127 *)
Definition fatal (error : err) : M unit :=
  stderr_write ("Fatal error starting MCP server: " +:+ error) ;;
  process_exit 1.

(** What an [await] does when its promise settles. *)
Definition resume (o : outcome) : M unit :=
  λ s, match o with Resolved => Ret s tt | Rejected e => Throw s e end.

(** The [try] blocks around a piece of [main]: the outer one with the
    [.catch] of the module body, the inner one of the validation, the one of
    the initialization. *)
Definition in_main (r : res unit) : res unit :=
  catch_res (catch_res r start_failed) fatal.

Definition in_validation (r : res unit) : res unit :=
  in_main (bind_res (catch_res r validation_failed) (λ _, boot)).

Definition in_init (r : res unit) : res unit :=
  in_main (bind_res (catch_res r init_failed) (λ _, serve)).

(** The continuations of [main] at its four [await]s. *)
Definition k_fs : outcome → State → res unit :=
  λ o s, in_validation
           (bind_res (resume o s)
              (λ _, await (ImportModule "path") ;; checks (session_dir w))).

Definition k_path : outcome → State → res unit :=
  λ o s, in_validation (bind_res (resume o s) (λ _, checks (session_dir w))).

Definition k_init : outcome → State → res unit :=
  λ o s, in_init (bind_res (resume o s) (λ _, initialized)).

Definition k_start : outcome → State → res unit :=
  λ o s, in_main (bind_res (resume o s) (λ _, started)).

End Blocks.

(** The continuation of a signal listener at [await mcpServer.stop()]. *)
Definition k_stop : outcome → State → res unit :=
  λ o s, bind_res (resume o s) (λ _, process_exit 0).

(** The state with every field given. *)
Definition state_with (s : State) (files : gmap string node) (lines : list string)
    (made : list call) : State :=
  {| fs := files; stderr := (stderr s ++ lines)%list; stdout := stdout s;
     calls := (calls s ++ made)%list; listeners := listeners s |}.

(** What a synchronous block may change: it writes to stderr, and the only
    calls it makes are the checks of the session directory. *)
Definition frame (s s' : State) : Prop :=
  stdout s' = stdout s ∧ listeners s' = listeners s ∧
  (∀ c, check_rank c = None → count c s' = count c s) ∧
  (length (stderr s) ≤ length (stderr s'))%nat.

(** The protocol server is neither constructed nor started. *)
Definition unserved (s : State) : Prop :=
  count NewMCPServer s = 0%nat ∧ count Start s = 0%nat.

(** The state in which [main] awaits the first import. *)
Definition state_fs (w : World) : State :=
  {| fs := disk w; stderr := [validating_line]; stdout := [];
     calls := [ImportModule "fs"]; listeners := boot_listeners |}.

(** The state in which [main] awaits the second import. *)
Definition state_path (w : World) : State := log (ImportModule "path") (state_fs w).

(** The process while [main] is suspended at its [n]-th [await]. *)
Inductive main_at (w : World) : nat → Proc → Prop :=
| at_fs s :
    early s → unserved s →
    main_at w 0 {| st := s; suspended := [(ImportModule "fs", k_fs w)]; status := Alive |}
| at_path s :
    early s → unserved s →
    main_at w 1 {| st := s; suspended := [(ImportModule "path", k_path w)]; status := Alive |}
| at_init s :
    early s → unserved s →
    main_at w 2 {| st := s; suspended := [(InitializeWithoutCluster, k_init w)];
                   status := Alive |}
| at_start s :
    early s →
    main_at w 3 {| st := s; suspended := [(Start, k_start)]; status := Alive |}.

(** Where a run stands: [main] is suspended; or the process ended before
    [main] returned; or [main] returned, after four promises resolved. *)
Inductive phase (w : World) (evs : list event) : Prop :=
| ph_early n :
    (n ≤ 3)%nat → evs = resolved n → main_at w n (run w evs) → phase w evs
| ph_ended_early :
    ¬ reached_running w evs → early (st (run w evs)) →
    status (run w evs) = Exited 1 ∨ (∃ sg, status (run w evs) = Killed sg) →
    phase w evs
| ph_late tl :
    evs = (resolved 4 ++ tl)%list → lifecycle (run w (resolved 4)) = Running →
    main_at w 3 (run w (resolved 3)) → late (run w evs) → phase w evs.

(** ** Vocabulary of the further properties *)

(** The checks of the session directory, in the order of the source. *)
Definition check_calls (w : World) : list call :=
  [ExistsSync (session_dir w); StatSync (session_dir w);
   WriteFileSync (probe_file w) "test"; UnlinkSync (probe_file w)].

(** Every external call of [main], in the order of the source. *)
Definition boot_calls (w : World) : list call :=
  ([ImportModule "fs"; ImportModule "path"] ++ check_calls w
   ++ [NewDotAI; InitializeWithoutCluster; NewMCPServer; Start])%list.

(** The calls [main] makes between its [n]-th [await] and the next. *)
Definition next_calls (w : World) (n : nat) : list call :=
  match n with
  | 0%nat => [ImportModule "path"]
  | 1%nat => (check_calls w ++ [NewDotAI; InitializeWithoutCluster])%list
  | 2%nat => [NewMCPServer; Start]
  | _ => []
  end.

(** The number of calls made when [main] is suspended at its [n]-th [await]. *)
Definition calls_at (n : nat) : nat :=
  match n with
  | 0%nat => 1
  | 1%nat => 2
  | 2%nat => 8
  | _ => 10
  end.

(** Two file systems that differ at most at path [p]. *)
Definition same_but (p : string) (m m' : gmap string node) : Prop :=
  ∀ path, path ≠ p → m' !! path = m !! path.

(** The process started again on the disk the run [p] has left. *)
Definition restarted (w : World) (p : Proc) : World :=
  {| session_dir_env := session_dir_env w; disk := fs (st p); fault := fault w |}.

(** The constructor of the toolkit throws. *)
Definition broken_toolkit_world : World :=
  {| session_dir_env := Some "/tmp/dot-ai-sessions";
     disk := {[ "/tmp/dot-ai-sessions" := Directory ]};
     fault := λ c, match c with
                   | NewDotAI => Some "Cannot find module"
                   | _ => None
                   end |}.

(** The constructor of the protocol server throws. *)
Definition broken_server_world : World :=
  {| session_dir_env := Some "/tmp/dot-ai-sessions";
     disk := {[ "/tmp/dot-ai-sessions" := Directory ]};
     fault := λ c, match c with
                   | NewMCPServer => Some "invalid server config"
                   | _ => None
                   end |}.


(** * Proofs *)

#[local] Arguments lookup : simpl never.
#[local] Arguments insert : simpl never.
#[local] Arguments delete : simpl never.
#[local] Arguments count : simpl never.
#[local] Arguments path_join : simpl never.
#[local] Arguments checks : simpl never.
#[local] Arguments boot : simpl never.
#[local] Arguments serve : simpl never.
#[local] Arguments started : simpl never.
#[local] Arguments initialized : simpl never.
#[local] Arguments missing_config : simpl never.

(** ** [path.join] on some paths *)

Example path_join_normalizes :
  path_join "/tmp/dot-ai-sessions" ".mcp-test-write" = "/tmp/dot-ai-sessions/.mcp-test-write" ∧
  path_join "/tmp/dot-ai-sessions/" ".mcp-test-write" = "/tmp/dot-ai-sessions/.mcp-test-write" ∧
  path_join "/tmp//x/../dot-ai-sessions/." ".mcp-test-write"
  = "/tmp/dot-ai-sessions/.mcp-test-write" ∧
  path_join "./sessions" ".mcp-test-write" = "sessions/.mcp-test-write" ∧
  path_join "../sessions" ".mcp-test-write" = "../sessions/.mcp-test-write" ∧
  path_join "/" ".mcp-test-write" = "/.mcp-test-write" ∧
  path_join "." ".mcp-test-write" = ".mcp-test-write".
Proof. vm_compute. by repeat split. Qed.

(** ** Three runs *)

Example started_run :
  let p := run sessions_world (resolved 4) in
  lifecycle p = Running ∧
  stderr (st p)
  = ["Validating MCP server configuration...";
     "Session directory validated: /tmp/dot-ai-sessions";
     "Initializing DevOps AI Toolkit...";
     "DevOps AI Toolkit initialized successfully";
     "Cluster connectivity will be checked when needed by individual tools";
     "Starting DevOps AI Toolkit MCP server...";
     "DevOps AI Toolkit MCP server started successfully"] ∧
  calls (st p)
  = [ImportModule "fs"; ImportModule "path";
     ExistsSync "/tmp/dot-ai-sessions"; StatSync "/tmp/dot-ai-sessions";
     WriteFileSync "/tmp/dot-ai-sessions/.mcp-test-write" "test";
     UnlinkSync "/tmp/dot-ai-sessions/.mcp-test-write";
     NewDotAI; InitializeWithoutCluster; NewMCPServer; Start] ∧
  listeners (st p) = all_listeners.
Proof. cbv zeta. split_and!; vm_compute; reflexivity. Qed.

Example interrupted_run :
  let p := run sessions_world (resolved 4 ++ [Signal SIGINT; Settled Resolved]) in
  status p = Exited 0 ∧ count Stop (st p) = 1%nat ∧
  last (stderr (st p)) = Some shutdown_notice.
Proof. cbv zeta. split_and!; vm_compute; reflexivity. Qed.

Example unset_run :
  let p := run unset_world [] in
  status p = Exited 1 ∧ calls (st p) = [] ∧
  stderr (st p)
  = validating_line :: diagnostic MissingConfig (session_dir unset_world).
Proof. cbv zeta. split_and!; vm_compute; reflexivity. Qed.

(** ** The event loop *)

Lemma run_snoc w evs ev : run w (evs ++ [ev]) = step (run w evs) ev.
Proof. unfold run. by rewrite fold_left_app. Qed.

Lemma run_app w evs evs' : run w (evs ++ evs') = fold_left step evs' (run w evs).
Proof. unfold run. by rewrite fold_left_app. Qed.

Lemma step_ended p ev : status p ≠ Alive → step p ev = p.
Proof. unfold step. by destruct (status p). Qed.

Lemma steps_ended p evs : status p ≠ Alive → fold_left step evs p = p.
Proof.
  intros Hp. induction evs as [|ev evs IH]; [done|].
  simpl. by rewrite step_ended.
Qed.


(** ** [main] is the composition of its blocks *)

Lemma main_blocks w :
  main w =
  try_catch
    (stderr_write validating_line ;;
     when (negb (configured w)) missing_config ;;
     try_catch
       (await (ImportModule "fs") ;;
        await (ImportModule "path") ;;
        checks w (session_dir w))
       validation_failed ;;
     boot w)
    start_failed.
Proof. reflexivity. Qed.

Lemma start_process_configured w :
  configured w = true →
  start_process w =
  {| st := state_fs w; suspended := [(ImportModule "fs", k_fs w)]; status := Alive |}.
Proof.
  intros Hc. unfold start_process, module_body. rewrite main_blocks.
  cbn. rewrite Hc. reflexivity.
Qed.

Lemma start_process_unconfigured w :
  configured w = false →
  start_process w =
  {| st := {| fs := disk w;
              stderr := validating_line :: diagnostic MissingConfig (session_dir w);
              stdout := []; calls := []; listeners := boot_listeners |};
     suspended := []; status := Exited 1 |}.
Proof.
  intros Hc. unfold start_process, module_body. rewrite main_blocks.
  cbn. rewrite Hc. reflexivity.
Qed.

Lemma k_fs_resolved w s :
  k_fs w Resolved s = Suspend (log (ImportModule "path") s) (ImportModule "path") (k_path w).
Proof. reflexivity. Qed.

Lemma k_fs_rejected w e s :
  k_fs w (Rejected e) s =
  Exit (add_stderr ("FATAL: Session directory validation failed: " +:+ e) s) 1.
Proof. reflexivity. Qed.

Lemma k_path_resolved w s :
  k_path w Resolved s = in_validation w (checks w (session_dir w) s).
Proof. reflexivity. Qed.

Lemma k_path_rejected w e s :
  k_path w (Rejected e) s =
  Exit (add_stderr ("FATAL: Session directory validation failed: " +:+ e) s) 1.
Proof. reflexivity. Qed.

Lemma in_validation_throw w s e :
  in_validation w (Throw s e) =
  Exit (add_stderr ("FATAL: Session directory validation failed: " +:+ e) s) 1.
Proof. reflexivity. Qed.

Lemma in_validation_exit w s c : in_validation w (Exit s c) = Exit s c.
Proof. reflexivity. Qed.

Lemma in_validation_ret w s : in_validation w (Ret s tt) = in_main (boot w s).
Proof. reflexivity. Qed.

Lemma in_main_boot w s :
  in_main (boot w s) =
  match fault w NewDotAI with
  | Some e =>
      Exit (add_stderr ("Failed to start DevOps AI Toolkit MCP server: " +:+ e)
              (log NewDotAI s)) 1
  | None =>
      Suspend
        (log InitializeWithoutCluster
           (add_stderr "Initializing DevOps AI Toolkit..." (log NewDotAI s)))
        InitializeWithoutCluster (k_init w)
  end.
Proof. unfold boot. cbn. destruct (fault w NewDotAI); reflexivity. Qed.

Lemma k_init_rejected w e s :
  k_init w (Rejected e) s =
  Exit (add_stderr ("FATAL: Failed to initialize DevOps AI Toolkit: " +:+ e) s) 1.
Proof. reflexivity. Qed.

Lemma k_init_resolved w s :
  k_init w Resolved s =
  let s := add_stderr "Cluster connectivity will be checked when needed by individual tools"
             (add_stderr "DevOps AI Toolkit initialized successfully" s) in
  match fault w NewMCPServer with
  | Some e =>
      Exit (add_stderr ("Failed to start DevOps AI Toolkit MCP server: " +:+ e)
              (log NewMCPServer s)) 1
  | None =>
      Suspend
        (log Start
           (add_stderr "Starting DevOps AI Toolkit MCP server..." (log NewMCPServer s)))
        Start k_start
  end.
Proof.
  unfold k_init, in_init, in_main, initialized, serve. cbn.
  destruct (fault w NewMCPServer); reflexivity.
Qed.

Lemma k_start_rejected e s :
  k_start (Rejected e) s =
  Exit (add_stderr ("Failed to start DevOps AI Toolkit MCP server: " +:+ e) s) 1.
Proof. reflexivity. Qed.

Lemma k_start_resolved s :
  k_start Resolved s =
  Ret (add_listener (OnSignal SIGTERM) SigtermShutdown
         (add_listener (OnSignal SIGINT) SigintShutdown
            (add_stderr "DevOps AI Toolkit MCP server started successfully" s))) tt.
Proof. reflexivity. Qed.

(** The signal listeners run to their [await]. *)
Lemma shutdown_listener l arg s :
  l = SigintShutdown ∨ l = SigtermShutdown →
  listener_body l arg s = Suspend (log Stop (add_stderr shutdown_notice s)) Stop k_stop.
Proof. by intros [-> | ->]. Qed.

Lemma k_stop_resolved s : k_stop Resolved s = Exit s 0.
Proof. reflexivity. Qed.

Lemma k_stop_rejected e s : k_stop (Rejected e) s = Throw s e.
Proof. reflexivity. Qed.

(** ** The checks of the session directory *)

Ltac split_match :=
  match goal with
  | |- context [match ?x with _ => _ end] =>
      lazymatch x with
      | context [match _ with _ => _ end] => fail
      | _ => destruct x eqn:?
      end
  end.

Lemma count_log c c' s :
  count c (log c' s) = (count c s + if decide (c' = c) then 1 else 0)%nat.
Proof.
  unfold count, log. cbn. rewrite filter_app, length_app. cbn.
  unfold filter. cbn. by destruct (decide (c' = c)).
Qed.

Lemma count_log_check c c' s :
  check_rank c = None → is_Some (check_rank c') → count c (log c' s) = count c s.
Proof.
  intros Hc [r Hr]. rewrite count_log.
  destruct (decide (c' = c)) as [->|]; [congruence | lia].
Qed.

Lemma count_add_stderr c l s : count c (add_stderr l s) = count c s.
Proof. reflexivity. Qed.

Lemma count_set_fs c f s : count c (set_fs f s) = count c s.
Proof. reflexivity. Qed.

Lemma checks_frame w dir s :
  match checks w dir s with
  | Ret s' _ | Throw s' _ => frame s s'
  | Exit s' c => c = 1 ∧ frame s s' ∧ (length (stderr s) < length (stderr s'))%nat
  | Suspend _ _ _ => False
  end.
Proof.
  unfold checks, probe. cbn.
  repeat (split_match; cbn).
  all: unfold frame; cbn; rewrite ?length_app; cbn; repeat split; try done; try lia.
  all: intros c Hc;
    repeat first [ rewrite count_add_stderr | rewrite count_set_fs
                 | rewrite count_log_check by (cbn; eauto) ]; done.
Qed.

(** The seven ways through the checks. *)

Lemma state_with_eq s s' files lines made :
  fs s' = files → stderr s' = (stderr s ++ lines)%list → stdout s' = stdout s →
  calls s' = (calls s ++ made)%list → listeners s' = listeners s →
  s' = state_with s files lines made.
Proof. destruct s'. cbn. by intros -> -> -> -> ->. Qed.

Ltac state_eq :=
  apply state_with_eq; cbn; rewrite <- ?app_assoc; reflexivity.

Section Checks.
Context (w : World) (s : State).
Let dir := session_dir w.
Let testFile := path_join dir ".mcp-test-write".

Lemma checks_exists_throws e :
  fault w (ExistsSync dir) = Some e →
  checks w dir s = Throw (log (ExistsSync dir) s) e.
Proof. intros He. unfold checks. cbn. by rewrite He. Qed.

Lemma checks_not_found :
  fault w (ExistsSync dir) = None →
  fs s !! dir = None →
  checks w dir s =
  Exit (state_with s (fs s) (diagnostic PathNotFound dir) [ExistsSync dir]) 1.
Proof.
  intros He Hd. unfold checks. cbn. rewrite He. cbn. rewrite Hd. cbn.
  f_equal. state_eq.
Qed.

Lemma checks_stat_throws n e :
  fault w (ExistsSync dir) = None →
  fs s !! dir = Some n →
  fault w (StatSync dir) = Some e →
  checks w dir s = Throw (log (StatSync dir) (log (ExistsSync dir) s)) e.
Proof.
  intros He Hd Hs. unfold checks. cbn. rewrite He. cbn. rewrite Hd. cbn.
  by rewrite Hs.
Qed.

Lemma checks_not_directory content :
  fault w (ExistsSync dir) = None →
  fs s !! dir = Some (File content) →
  fault w (StatSync dir) = None →
  checks w dir s =
  Exit (state_with s (fs s) (diagnostic NotADirectory dir)
          [ExistsSync dir; StatSync dir]) 1.
Proof.
  intros He Hd Hs. unfold checks. cbn. rewrite He. cbn. rewrite Hd. cbn.
  rewrite Hs, Hd. cbn. f_equal. state_eq.
Qed.

Lemma checks_write_fails :
  fault w (ExistsSync dir) = None →
  fs s !! dir = Some Directory →
  fault w (StatSync dir) = None →
  is_Some (fault w (WriteFileSync testFile "test")) ∨ fs s !! testFile = Some Directory →
  checks w dir s =
  Exit (state_with s (fs s) (diagnostic NotWritable dir)
          [ExistsSync dir; StatSync dir; WriteFileSync testFile "test"]) 1.
Proof.
  unfold testFile. intros He Hd Hs Hw. unfold checks. cbn.
  rewrite He. cbn. rewrite Hd. cbn. rewrite Hs, Hd. cbn.
  destruct (fault w (WriteFileSync _ "test")) as [e|] eqn:Ew.
  - cbn. f_equal. state_eq.
  - destruct Hw as [[? ?]|Hw]; [done|]. rewrite Hw. cbn. f_equal. state_eq.
Qed.

Lemma checks_unlink_fails e :
  fault w (ExistsSync dir) = None →
  fs s !! dir = Some Directory →
  fault w (StatSync dir) = None →
  fault w (WriteFileSync testFile "test") = None →
  fs s !! testFile ≠ Some Directory →
  fault w (UnlinkSync testFile) = Some e →
  checks w dir s =
  Exit (state_with s (<[testFile := File "test"]> (fs s)) (diagnostic NotWritable dir)
          [ExistsSync dir; StatSync dir; WriteFileSync testFile "test";
           UnlinkSync testFile]) 1.
Proof.
  unfold testFile. intros He Hd Hs Hw Hp Hu. unfold checks. cbn.
  rewrite He. cbn. rewrite Hd. cbn. rewrite Hs, Hd. cbn. rewrite Hw.
  destruct (fs s !! path_join dir _) as [[]|] eqn:Ep; [| done |];
    cbn; rewrite Hu; cbn; f_equal; state_eq.
Qed.

Lemma checks_pass :
  fault w (ExistsSync dir) = None →
  fs s !! dir = Some Directory →
  fault w (StatSync dir) = None →
  fault w (WriteFileSync testFile "test") = None →
  fs s !! testFile ≠ Some Directory →
  fault w (UnlinkSync testFile) = None →
  checks w dir s =
  Ret (state_with s (delete testFile (<[testFile := File "test"]> (fs s)))
         ["Session directory validated: " +:+ dir]
         [ExistsSync dir; StatSync dir; WriteFileSync testFile "test";
          UnlinkSync testFile]) tt.
Proof.
  unfold testFile. intros He Hd Hs Hw Hp Hu. unfold checks. cbn.
  rewrite He. cbn. rewrite Hd. cbn. rewrite Hs, Hd. cbn. rewrite Hw.
  destruct (fs s !! path_join dir _) as [[]|] eqn:Ep; [| done |];
    cbn; rewrite Hu, lookup_insert_eq; cbn; f_equal; state_eq.
Qed.

End Checks.

(** ** Before [main] returns *)

Lemma early_log c s : c ≠ Stop → early s → early (log c s).
Proof.
  intros Hc (? & Hn & ?). repeat split; try done.
  rewrite count_log, Hn. by destruct (decide (c = Stop)).
Qed.

Lemma early_add_stderr l s : early s → early (add_stderr l s).
Proof. by intros (? & ? & ?). Qed.

Lemma early_frame s s' : frame s s' → early s → early s'.
Proof.
  intros (Ho & Hl & Hc & _) (? & ? & ?). repeat split; try congruence.
  by rewrite Hc.
Qed.

Lemma unserved_frame s s' : frame s s' → unserved s → unserved s'.
Proof. intros (_ & _ & Hc & _) [? ?]. split; by rewrite Hc. Qed.

Lemma unserved_log c s :
  c ≠ NewMCPServer → c ≠ Start → unserved s → unserved (log c s).
Proof.
  intros H1 H2 [Ha Hb]. split; rewrite count_log.
  - rewrite Ha. by destruct (decide (c = NewMCPServer)).
  - rewrite Hb. by destruct (decide (c = Start)).
Qed.

Lemma early_listeners s :
  early s →
  listeners_for UncaughtException s = [UncaughtHandler] ∧
  listeners_for UnhandledRejection s = [RejectionHandler] ∧
  ∀ sg, listeners_for (OnSignal sg) s = [].
Proof.
  intros (_ & _ & Hl). unfold listeners_for. rewrite Hl.
  repeat split; by intros [].
Qed.

Lemma length_add_stderr l s :
  length (stderr (add_stderr l s)) = S (length (stderr s)).
Proof. cbn. rewrite length_app. cbn. lia. Qed.

Lemma unserved_add_stderr l s : unserved s → unserved (add_stderr l s).
Proof. done. Qed.

Create HintDb lifecycle.
#[local] Hint Extern 1 (_ ≠ _) => discriminate : lifecycle.
#[local] Hint Resolve unserved_add_stderr : lifecycle.
#[local] Hint Resolve early_log early_add_stderr early_frame : lifecycle.
#[local] Hint Resolve unserved_frame unserved_log : lifecycle.

Lemma main_at_alive w n p :
  main_at w n p → status p = Alive ∧ lifecycle p = stage n ∧ early (st p).
Proof. by destruct 1. Qed.

Lemma emit_uncaught_early e p :
  status p = Alive → early (st p) →
  early_end p (emit_uncaught e p) (Uncaught e).
Proof.
  intros Hp He. destruct (early_listeners _ He) as (Hu & _ & _).
  unfold emit_uncaught. rewrite Hu. cbn. rewrite Hp. cbn.
  split; [by apply early_add_stderr|]. split; [done|].
  cbn [st]. rewrite length_add_stderr. lia.
Qed.

Lemma emit_unhandled_early r p :
  status p = Alive → early (st p) →
  early_end p (emit_unhandled r p) (Unhandled r).
Proof.
  intros Hp He. destruct (early_listeners _ He) as (_ & Hu & _).
  unfold emit_unhandled. rewrite Hu. cbn. rewrite Hp. cbn.
  split; [by apply early_add_stderr|]. split; [done|].
  cbn [st]. rewrite length_add_stderr. lia.
Qed.

Lemma emit_signal_early sg p :
  early (st p) → early_end p (emit_signal sg p) (Signal sg).
Proof.
  intros He. destruct (early_listeners _ He) as (_ & _ & Hs).
  unfold emit_signal. by rewrite Hs.
Qed.

Lemma exit_early p s :
  early s → (length (stderr (st p)) < length (stderr s))%nat →
  ∀ ev, (∀ sg, ev ≠ Signal sg) →
  early_end p {| st := s; suspended := []; status := Exited 1 |} ev.
Proof.
  intros He Hl ev Hev. split; [done|]. destruct ev; try done. by destruct (Hev sg).
Qed.

Ltac grows :=
  cbn [st]; rewrite ?length_add_stderr; cbn [stderr log set_fs add_listener];
  rewrite ?length_add_stderr; lia.

Lemma main_at_step w n p ev :
  main_at w n p →
  (ev = Settled Resolved ∧ status (step p ev) = Alive ∧
   match n with
   | 3%nat => late (step p ev) ∧ suspended (step p ev) = []
   | _ => main_at w (S n) (step p ev)
   end)
  ∨ early_end p (step p ev) ev.
Proof.
  intros Hat. destruct (main_at_alive _ _ _ Hat) as (Hp & _ & He).
  unfold step. rewrite Hp.
  destruct ev as [o|sg|e|r];
    [ | right; by apply emit_signal_early
      | right; by apply emit_uncaught_early
      | right; by apply emit_unhandled_early ].
  destruct Hat as [s Hs Hu|s Hs Hu|s Hs Hu|s Hs]; cbn [suspended st] in *.
  - destruct o as [|e].
    + left. rewrite k_fs_resolved. cbn. split; [done|]. split; [done|].
      constructor; auto with lifecycle.
    + right. rewrite k_fs_rejected. apply exit_early; [auto with lifecycle| |done].
      grows.
  - destruct o as [|e].
    + rewrite k_path_resolved.
      pose proof (checks_frame w (session_dir w) s) as Hc.
      destruct (checks w (session_dir w) s) as [s' []|s' e|s' c|]; [| | |done].
      * rewrite in_validation_ret, in_main_boot.
        destruct (fault w NewDotAI) as [e|]; cbn.
        -- right. apply exit_early; [eauto 6 with lifecycle| |done].
           destruct Hc as (_ & _ & _ & Hc). grows.
        -- left. split; [done|]. split; [done|].
           constructor; eauto 8 with lifecycle.
      * right. rewrite in_validation_throw. cbn.
        apply exit_early; [eauto 6 with lifecycle| |done].
        destruct Hc as (_ & _ & _ & Hc). grows.
      * right. rewrite in_validation_exit. cbn. destruct Hc as (-> & Hc & Hl).
        apply exit_early; [eauto 6 with lifecycle|done|done].
    + right. rewrite k_path_rejected. apply exit_early; [auto with lifecycle| |done].
      grows.
  - destruct o as [|e].
    + rewrite k_init_resolved. cbn zeta.
      destruct (fault w NewMCPServer) as [e|]; cbn.
      * right. apply exit_early; [eauto 8 with lifecycle| |done].
        grows.
      * left. split; [done|]. split; [done|].
        constructor; eauto 8 with lifecycle.
    + right. rewrite k_init_rejected. apply exit_early; [auto with lifecycle| |done].
      grows.
  - destruct o as [|e].
    + left. rewrite k_start_resolved. cbn. split; [done|]. split; [done|].
      destruct Hs as (Ho & Hn & Hl). split; [|done].
      repeat split; cbn; try done. by rewrite Hl.
    + right. rewrite k_start_rejected. apply exit_early; [auto with lifecycle| |done].
      grows.
Qed.

(** ** After [main] returned *)

Lemma late_listeners s :
  listeners s = all_listeners →
  listeners_for UncaughtException s = [UncaughtHandler] ∧
  listeners_for UnhandledRejection s = [RejectionHandler] ∧
  listeners_for (OnSignal SIGINT) s = [SigintShutdown] ∧
  listeners_for (OnSignal SIGTERM) s = [SigtermShutdown].
Proof. unfold listeners_for. by intros ->. Qed.

Lemma k_stop_activation : shutdown_activation (Stop, k_stop).
Proof. split; [done|]. by intros []. Qed.

Lemma late_step p ev :
  late p → status p = Alive →
  (late (step p ev) ∧ status (step p ev) = Alive ∧
   match ev with
   | Signal _ =>
       st (step p ev) = log Stop (add_stderr shutdown_notice (st p)) ∧
       suspended (step p ev) = (suspended p ++ [(Stop, k_stop)])%list
   | Settled _ => step p ev = p ∧ suspended p = []
   | _ => False
   end)
  ∨ late_end p (step p ev) ev.
Proof.
  intros (Ho & Hl & Hc) Hp. destruct (Hc Hp) as (Hk & Hn & Hlast).
  destruct (late_listeners _ Hl) as (Hlu & Hlr & Hli & Hlt).
  unfold step. rewrite Hp. destruct ev as [o|sg|e|r].
  - destruct (suspended p) as [|[c k] rest] eqn:Hsus.
    + left. repeat split; try done. all: try by rewrite Hsus.
    + right. apply Forall_cons in Hk as [[_ Hk] _]. cbn in Hk. rewrite Hk.
      destruct o as [|e]; cbn.
      * unfold late_end. cbn. rewrite Hsus. repeat split; done.
      * unfold emit_unhandled. cbn. rewrite Hlr. cbn.
        unfold late_end. cbn. rewrite Hsus. repeat split; done.
  - left. unfold emit_signal.
    assert (Hsg : ∃ l, listeners_for (OnSignal sg) (st p) = [l]
                       ∧ (l = SigintShutdown ∨ l = SigtermShutdown)).
    { destruct sg; eauto. }
    destruct Hsg as (l & -> & Hsg). cbn. rewrite Hp.
    rewrite (shutdown_listener _ _ _ Hsg). cbn.
    split; [|by repeat split].
    split; [done|]. split; [done|]. intros _. cbn [st suspended]. split; [|split].
    + apply Forall_app. split; [done|]. apply Forall_singleton, k_stop_activation.
    + rewrite count_log, count_add_stderr, Hn, length_app. cbn.
      by destruct (decide (Stop = Stop)).
    + intros _. cbn. by rewrite last_snoc.
  - right. unfold emit_uncaught. rewrite Hlu. cbn. rewrite Hp. cbn.
    unfold late_end. cbn. repeat split; done.
  - right. unfold emit_unhandled. rewrite Hlr. cbn. rewrite Hp. cbn.
    unfold late_end. cbn. repeat split; done.
Qed.

(** ** Every run *)

Lemma early_end_ended p q ev : early_end p q ev → status q ≠ Alive.
Proof.
  intros [_ H]. destruct ev; [destruct H as [H _]| |destruct H as [H _]..]; congruence.
Qed.

Lemma late_end_ended p q ev : late_end p q ev → status q ≠ Alive.
Proof.
  intros (_ & _ & _ & H). destruct ev as [[]| | |]; try done;
    destruct H as [? _]; congruence.
Qed.

Lemma ended_lifecycle p : status p ≠ Alive → lifecycle p = Terminated.
Proof. unfold lifecycle. by destruct (status p). Qed.

Lemma resolved_snoc n : (resolved n ++ [Settled Resolved])%list = resolved (S n).
Proof. unfold resolved. by rewrite <- repeat_cons. Qed.

Lemma start_phase w :
  main_at w 0 (start_process w)
  ∨ (configured w = false ∧ status (start_process w) = Exited 1
     ∧ early (st (start_process w))
     ∧ stderr (st (start_process w))
       = validating_line :: diagnostic MissingConfig (session_dir w)
     ∧ calls (st (start_process w)) = []).
Proof.
  destruct (configured w) eqn:Hc.
  - left. rewrite start_process_configured by done. by constructor.
  - right. by rewrite start_process_unconfigured.
Qed.

Lemma resolved_main_at w n :
  (n ≤ 3)%nat → status (run w (resolved n)) = Alive → main_at w n (run w (resolved n)).
Proof.
  induction n as [|n IH]; intros Hn Halive.
  - destruct (start_phase w) as [?|(_ & Hst & _)]; [done|].
    unfold run in Halive. cbn in Halive. congruence.
  - rewrite <- resolved_snoc in *. rewrite run_snoc in *.
    assert (Hpre : status (run w (resolved n)) = Alive).
    { destruct (status (run w (resolved n))) eqn:E; [done| |];
        rewrite step_ended in Halive by (by rewrite E); congruence. }
    destruct (main_at_step w n _ (Settled Resolved) (IH ltac:(lia) Hpre))
      as [(_ & _ & Hm)|Hend].
    + by destruct n as [|[|[|n]]]; [| | |lia].
    + by apply early_end_ended in Hend.
Qed.

Lemma prefix_resolved pre n :
  pre `prefix_of` resolved n → ∃ m, (m ≤ n)%nat ∧ pre = resolved m.
Proof.
  revert pre. induction n as [|n IH]; intros pre Hpre.
  - apply prefix_nil_inv in Hpre as ->. by exists 0%nat.
  - destruct pre as [|ev pre]; [exists 0%nat; split; [lia|done]|].
    cbn in Hpre. apply prefix_cons_inv_1 in Hpre as Hev.
    apply prefix_cons_inv_2 in Hpre. destruct (IH _ Hpre) as (m & ? & ->).
    exists (S m). split; [lia|]. by rewrite Hev.
Qed.

Lemma resolved_not_running w n pre :
  (n ≤ 3)%nat → pre `prefix_of` resolved n → lifecycle (run w pre) ≠ Running.
Proof.
  intros Hn (m & Hm & ->)%prefix_resolved.
  destruct (status (run w (resolved m))) eqn:E.
  - destruct (main_at_alive _ _ _ (resolved_main_at w m ltac:(lia) E)) as (_ & -> & _).
    by destruct m as [|[|[|[|m]]]]; [| | | |lia].
  - rewrite ended_lifecycle; [done | by rewrite E].
  - rewrite ended_lifecycle; [done | by rewrite E].
Qed.

Lemma not_reached_snoc w evs ev :
  ¬ reached_running w evs → status (run w (evs ++ [ev])) ≠ Alive →
  ¬ reached_running w (evs ++ [ev]).
Proof.
  intros Hnot Hend (pre & Hpre & Hrun).
  destruct Hpre as [tl Htl]. destruct tl as [|t tl _] using rev_ind.
  - rewrite app_nil_r in Htl. subst pre. by rewrite ended_lifecycle in Hrun.
  - rewrite app_assoc in Htl. apply app_inj_tail in Htl as [-> _].
    apply Hnot. exists pre. split; [by apply prefix_app_r|done].
Qed.

Lemma early_end_status p q ev :
  early_end p q ev → status q = Exited 1 ∨ (∃ sg, status q = Killed sg).
Proof. intros [_ H]. destruct ev; [left; apply H | right; eauto | left; apply H..]. Qed.

Lemma late_end_late p q ev : late_end p q ev → late q.
Proof.
  intros Hend. pose proof (late_end_ended _ _ _ Hend).
  destruct Hend as (? & ? & _). by repeat split.
Qed.

Lemma run_phase w evs : phase w evs.
Proof.
  induction evs as [|ev evs IH] using rev_ind.
  - destruct (start_phase w) as [Hat|(_ & Hst & He & _)].
    + by apply (ph_early w [] 0%nat); [lia| |].
    + apply ph_ended_early; [|done|by left].
      intros (pre & ->%prefix_nil_inv & Hrun).
      unfold run in Hrun. cbn in Hrun. rewrite ended_lifecycle in Hrun; [done|].
      by rewrite Hst.
  - destruct IH as [n Hn -> Hat|Hnot He Hst|tl -> Hrun Hat Hlate].
    + destruct (main_at_step w n _ ev Hat) as [(-> & Halive & Hm)|Hend].
      * rewrite <- run_snoc in Halive, Hm. rewrite resolved_snoc in *.
        destruct (decide (n = 3)%nat) as [->|].
        -- destruct Hm as [Hlate Hsus].
           apply (ph_late w _ []); [by rewrite app_nil_r| |done..].
           unfold lifecycle. by rewrite Halive, Hsus.
        -- apply (ph_early w _ (S n)); [lia|done|].
           by destruct n as [|[|[|n]]]; [| | |lia].
      * rewrite <- run_snoc in Hend. apply ph_ended_early.
        -- apply not_reached_snoc.
           ++ intros (pre & Hpre & Hr). by eapply resolved_not_running.
           ++ by eapply early_end_ended.
        -- apply Hend.
        -- by eapply early_end_status.
    + assert (Hsame : run w (evs ++ [ev]) = run w evs).
      { rewrite run_snoc, step_ended; [done|]. by destruct Hst as [->|[sg ->]]. }
      apply ph_ended_early; rewrite ?Hsame; [|done..].
      apply not_reached_snoc; [done|]. rewrite Hsame.
      by destruct Hst as [->|[sg ->]].
    + apply (ph_late w _ (tl ++ [ev])); [by rewrite app_assoc|done..|].
      rewrite run_snoc.
      destruct (status (run w (resolved 4 ++ tl))) eqn:E.
      * destruct (late_step _ ev Hlate E) as [(? & _)|?]; [done|].
        by eapply late_end_late.
      * rewrite step_ended; [done|by rewrite E].
      * rewrite step_ended; [done|by rewrite E].
Qed.

(** ** The validation, path by path *)

Lemma run_imports w :
  configured w = true →
  run w imports_loaded =
  settle [] (in_validation w (checks w (session_dir w) (state_path w))).
Proof.
  intros Hc. unfold run, imports_loaded. cbn [resolved repeat fold_left].
  by rewrite start_process_configured.
Qed.

Lemma run_unconfigured w evs :
  configured w = false → run w evs = start_process w.
Proof.
  intros Hc. unfold run. apply steps_ended.
  by rewrite start_process_unconfigured.
Qed.

Lemma probe_not_writable w :
  probe_writable w = false →
  is_Some (fault w (WriteFileSync (probe_file w) "test"))
  ∨ disk w !! probe_file w = Some Directory
  ∨ (fault w (WriteFileSync (probe_file w) "test") = None
     ∧ disk w !! probe_file w ≠ Some Directory
     ∧ is_Some (fault w (UnlinkSync (probe_file w)))).
Proof.
  intros Hw%bool_decide_eq_false.
  destruct (fault w (WriteFileSync (probe_file w) "test")) eqn:E1; [by left; eauto|].
  destruct (decide (disk w !! probe_file w = Some Directory)); [by right; left|].
  destruct (fault w (UnlinkSync (probe_file w))) eqn:E2; [|by destruct Hw].
  right. right. eauto.
Qed.

(** C2, as stated, fails: [sessions_world] and [flaky_world] have the same
    four inputs, all true; in the first the validation succeeds, in the
    second [statSync] throws and the process exits with code 1 after a line
    that belongs to none of the four failures. *)
Lemma C2_same_inputs_two_outcomes :
  let inputs w :=
    (configured w, path_exists w, path_is_directory w, probe_writable w) in
  inputs sessions_world = (true, true, true, true) ∧
  inputs flaky_world = (true, true, true, true) ∧
  lifecycle (run sessions_world imports_loaded) = Initializing ∧
  status (run flaky_world imports_loaded) = Exited 1 ∧
  stderr (st (run flaky_world imports_loaded))
  = [validating_line;
     "FATAL: Session directory validation failed: EIO: i/o error, stat"].
Proof. cbv zeta. split_and!; vm_compute; reflexivity. Qed.

(** C2, amended: where the existence check and the type check answer
    instead of throwing, the outcome of the preflight validation is the
    function [preflight_spec] of (variable set and not empty, path exists,
    path is a directory, probe can be written and deleted): each failure
    writes its own diagnostic and exits with code 1, and none of the later
    checks and no later stage has run; on success the validation line is
    written and the domain service is constructed. *)
Theorem C2_preflight_outcome w :
  (configured w = true → fault w (ExistsSync (session_dir w)) = None) →
  (configured w = true → path_exists w = true →
   fault w (StatSync (session_dir w)) = None) →
  let p := run w imports_loaded in
  match preflight_spec (configured w) (path_exists w) (path_is_directory w)
          (probe_writable w) with
  | Some f =>
      status p = Exited 1 ∧
      stderr (st p) = validating_line :: diagnostic f (session_dir w) ∧
      forallb (not_after f) (calls (st p)) = true
  | None =>
      take 2 (stderr (st p)) = [validating_line; validated_line w] ∧
      count NewDotAI (st p) = 1%nat ∧
      (fault w NewDotAI = None → lifecycle p = Initializing)
  end.
Proof.
  intros He Hs p. subst p. unfold preflight_spec.
  destruct (configured w) eqn:Hc; cbn [negb]; last first.
  { by rewrite run_unconfigured, start_process_unconfigured. }
  specialize (He eq_refl). specialize (Hs eq_refl).
  rewrite run_imports by done.
  destruct (path_exists w) eqn:Hx; cbn [negb]; last first.
  { apply bool_decide_eq_false in Hx. rewrite <- eq_None_not_Some in Hx.
    by rewrite checks_not_found. }
  specialize (Hs eq_refl). apply bool_decide_eq_true in Hx as [n Hn].
  destruct (path_is_directory w) eqn:Hd; cbn [negb]; last first.
  { apply bool_decide_eq_false in Hd. destruct n as [content|]; [|done].
    by rewrite (checks_not_directory _ _ content). }
  apply bool_decide_eq_true in Hd.
  destruct (probe_writable w) eqn:Hw; cbn [negb]; last first.
  { apply probe_not_writable in Hw as [Hw|[Hw|(Hw & Hp & [e Hu])]].
    - by rewrite checks_write_fails by auto.
    - by rewrite checks_write_fails by auto.
    - by rewrite (checks_unlink_fails _ _ e). }
  apply bool_decide_eq_true in Hw as (Hw & Hp & Hu).
  rewrite checks_pass, in_validation_ret, in_main_boot by done.
  by destruct (fault w NewDotAI).
Qed.

Lemma C2_preflight_outcome_witness :
  status (run file_world imports_loaded) = Exited 1 ∧
  stderr (st (run file_world imports_loaded))
  = validating_line :: diagnostic NotADirectory "/etc/hosts" ∧
  forallb (not_after NotADirectory) (calls (st (run file_world imports_loaded))) = true.
Proof. exact (C2_preflight_outcome file_world (λ _, eq_refl) (λ _ _, eq_refl)). Defined.

(** What the validation leaves when the directory passes every check. *)
Lemma run_validated w :
  configured w = true → checks_answer w →
  path_is_directory w = true → probe_writable w = true →
  let p := run w imports_loaded in
  take 2 (stderr (st p)) = [validating_line; validated_line w] ∧
  count NewDotAI (st p) = 1%nat ∧
  fs (st p) = delete (probe_file w) (<[probe_file w := File "test"]> (disk w)).
Proof.
  intros Hc [He Hs] Hd%bool_decide_eq_true (Hw & Hp & Hu)%bool_decide_eq_true p.
  subst p. rewrite run_imports by done.
  rewrite checks_pass, in_validation_ret, in_main_boot by done.
  by destruct (fault w NewDotAI).
Qed.

Lemma singleton_probe_absent w dir :
  disk w = {[ dir := Directory ]} →
  posix_normalize dir ≠ posix_normalize (probe_file w) →
  probe_absent w.
Proof.
  intros Hdisk Hne path Hpath. rewrite Hdisk.
  apply lookup_singleton_ne. intros <-. by apply Hne.
Qed.

Lemma sessions_probe_absent : probe_absent sessions_world.
Proof.
  apply (singleton_probe_absent _ "/tmp/dot-ai-sessions"); [done|].
  vm_compute. discriminate.
Defined.

Lemma sticky_probe_absent : probe_absent sticky_world.
Proof.
  apply (singleton_probe_absent _ "/tmp/dot-ai-sessions"); [done|].
  vm_compute. discriminate.
Defined.

(** C5, as stated, fails: in [collision_world] the directory exists, is a
    directory and is writable, and holds an entry named [.mcp-test-write];
    the validation succeeds and the entry is gone. *)
Lemma C5_probe_name_taken :
  let w := collision_world in
  let p := run w imports_loaded in
  configured w = true ∧ checks_answer w ∧
  path_is_directory w = true ∧ probe_writable w = true ∧
  validated_line w ∈ stderr (st p) ∧
  disk w !! probe_file w = Some (File "kept by a session") ∧
  fs (st p) !! probe_file w = None ∧
  fs (st p) ≠ disk w.
Proof.
  cbv zeta.
  assert (fs (st (run collision_world imports_loaded)) !! probe_file collision_world
          = None) as Hgone by (vm_compute; reflexivity).
  unfold checks_answer. split_and!; try (vm_compute; reflexivity).
  - apply (list_elem_of_lookup_2 _ 1%nat). vm_compute. reflexivity.
  - intros Heq. rewrite Heq in Hgone. vm_compute in Hgone. discriminate.
Qed.

(** C5, amended: when the session directory exists, is a directory and is
    writable, the validation succeeds and goes on to construct the domain
    service, and no entry named [.mcp-test-write] remains in the session
    directory; the file system is as before when the disk held no entry
    that names the probe file.  (An entry of that name is replaced and
    removed, as [collision_world] shows.) *)
Theorem C5_probe_leaves_no_residue w :
  configured w = true → checks_answer w →
  path_is_directory w = true → probe_writable w = true →
  let p := run w imports_loaded in
  validated_line w ∈ stderr (st p) ∧
  count NewDotAI (st p) = 1%nat ∧
  fs (st p) !! probe_file w = None ∧
  (probe_absent w → fs (st p) = disk w).
Proof.
  intros Hc Ha Hd Hw p. subst p.
  destruct (run_validated w Hc Ha Hd Hw) as (Hlines & Hn & ->).
  split; [|split; [done|]].
  { apply (list_elem_of_lookup_2 _ 1%nat).
    rewrite <- (lookup_take_lt _ 2) by lia. by rewrite Hlines. }
  rewrite delete_insert_eq. split; [by rewrite lookup_delete_eq|].
  intros Habsent. by apply delete_id, Habsent.
Qed.

Lemma C5_probe_leaves_no_residue_witness :
  let p := run slash_world imports_loaded in
  probe_file slash_world = "/tmp/dot-ai-sessions/.mcp-test-write" ∧
  validated_line slash_world ∈ stderr (st p) ∧
  count NewDotAI (st p) = 1%nat ∧
  fs (st p) !! probe_file slash_world = None ∧
  fs (st (run sessions_world imports_loaded)) = disk sessions_world.
Proof.
  split; [vm_compute; reflexivity|].
  destruct (C5_probe_leaves_no_residue slash_world) as (Hline & Hn & Hgone & _);
    [try split; vm_compute; reflexivity..|].
  destruct (C5_probe_leaves_no_residue sessions_world) as (_ & _ & _ & Hsame);
    [try split; vm_compute; reflexivity..|].
  split; [exact Hline|]. split; [exact Hn|]. split; [exact Hgone|].
  apply Hsame. exact sessions_probe_absent.
Defined.

(** C9: when the probe file is written and deleting it throws, the
    validation reports the directory as not writable and exits with code 1,
    and the file [.mcp-test-write] with content [test] is left in the session
    directory. *)
Theorem C9_probe_left_when_unlink_throws w e :
  configured w = true → checks_answer w →
  path_is_directory w = true →
  fault w (WriteFileSync (probe_file w) "test") = None →
  disk w !! probe_file w ≠ Some Directory →
  fault w (UnlinkSync (probe_file w)) = Some e →
  let p := run w imports_loaded in
  status p = Exited 1 ∧
  stderr (st p) = validating_line :: diagnostic NotWritable (session_dir w) ∧
  fs (st p) !! probe_file w = Some (File "test") ∧
  fs (st p) = <[probe_file w := File "test"]> (disk w).
Proof.
  intros Hc [He Hs] Hd%bool_decide_eq_true Hw Hp Hu p. subst p.
  rewrite run_imports by done.
  rewrite (checks_unlink_fails _ _ e) by done.
  repeat split. cbn. apply lookup_insert_eq.
Qed.

Lemma C9_probe_left_when_unlink_throws_witness :
  let p := run sticky_world imports_loaded in
  status p = Exited 1 ∧
  stderr (st p) = validating_line :: diagnostic NotWritable (session_dir sticky_world) ∧
  fs (st p) !! probe_file sticky_world = Some (File "test") ∧
  fs (st p) = <[probe_file sticky_world := File "test"]> (disk sticky_world).
Proof.
  apply (C9_probe_left_when_unlink_throws sticky_world "EACCES: permission denied");
    try split; vm_compute; done.
Defined.

(** C10: when the existence check or the type check throws, the exception
    does not leave the validation: the enclosing handler writes the one line
    [FATAL: Session directory validation failed: ...] and the process exits
    with code 1; the lines written are those of none of the four named
    failures. *)
Theorem C10_check_throws w e :
  configured w = true →
  fault w (ExistsSync (session_dir w)) = Some e
  ∨ (fault w (ExistsSync (session_dir w)) = None ∧ path_exists w = true
     ∧ fault w (StatSync (session_dir w)) = Some e) →
  let p := run w imports_loaded in
  status p = Exited 1 ∧
  stderr (st p)
  = [validating_line; "FATAL: Session directory validation failed: " +:+ e] ∧
  (∀ f, stderr (st p) ≠ validating_line :: diagnostic f (session_dir w)) ∧
  count NewDotAI (st p) = 0%nat.
Proof.
  intros Hc Hthrow p. subst p. rewrite run_imports by done.
  assert (∃ s, checks w (session_dir w) (state_path w) = Throw s e
               ∧ stderr s = [validating_line] ∧ count NewDotAI s = 0%nat)
    as (s & -> & Hlines & Hn).
  { destruct Hthrow as [He|(He & [n Hn]%bool_decide_eq_true & Hs)].
    - rewrite (checks_exists_throws _ _ e) by done. eauto.
    - rewrite (checks_stat_throws _ _ n e) by done. eauto. }
  rewrite in_validation_throw. cbn. rewrite Hlines. repeat split; try done.
  by intros [].
Qed.

Lemma C10_check_throws_witness :
  let p := run flaky_world imports_loaded in
  status p = Exited 1 ∧
  stderr (st p)
  = [validating_line;
     "FATAL: Session directory validation failed: EIO: i/o error, stat"] ∧
  (∀ f, stderr (st p) ≠ validating_line :: diagnostic f (session_dir flaky_world)) ∧
  count NewDotAI (st p) = 0%nat.
Proof.
  apply (C10_check_throws flaky_world "EIO: i/o error, stat");
    [reflexivity | right; split_and!; vm_compute; reflexivity].
Defined.

(** ** The lifecycle, run by run *)

Lemma late_lifecycle p :
  late p →
  lifecycle p = Terminated
  ∨ (status p = Alive ∧ suspended p = [] ∧ lifecycle p = Running)
  ∨ (status p = Alive ∧ suspended p ≠ [] ∧ lifecycle p = ShuttingDown).
Proof.
  intros (_ & _ & Hl). unfold lifecycle.
  destruct (status p); [|by left..]. destruct (Hl eq_refl) as (Hk & _ & _).
  destruct (suspended p) as [|[c k] rest]; [by right; left|].
  apply Forall_cons in Hk as [[Hc _] _]. cbn in Hc. subst c. by right; right.
Qed.

Lemma stage_early n : (n ≤ 3)%nat → stage n ≠ Running ∧ stage n ≠ ShuttingDown.
Proof. intros Hn. by destruct n as [|[|[|[|n]]]]; [| | | |lia]. Qed.

(** A run that stands at one of the stages of [main]. *)
Lemma lifecycle_main_at w evs :
  lifecycle (run w evs) = Validating ∨ lifecycle (run w evs) = Initializing
  ∨ lifecycle (run w evs) = Starting →
  ∃ n, (n ≤ 3)%nat ∧ evs = resolved n ∧ main_at w n (run w evs)
       ∧ lifecycle (run w evs) = stage n.
Proof.
  intros Hl. destruct (run_phase w evs) as [n Hn -> Hat|_ _ Hst|tl -> _ _ Hlate].
  - exists n. repeat split; try done. by apply main_at_alive in Hat as (_ & ? & _).
  - rewrite ended_lifecycle in Hl by (by destruct Hst as [->|[sg ->]]).
    by destruct Hl as [?|[?|?]].
  - destruct (late_lifecycle _ Hlate) as [H|[(_ & _ & H)|(_ & _ & H)]];
      rewrite H in Hl; by destruct Hl as [?|[?|?]].
Qed.

(** A run in which [main] has returned and the process is alive. *)
Lemma lifecycle_late w evs :
  lifecycle (run w evs) = Running ∨ lifecycle (run w evs) = ShuttingDown →
  late (run w evs) ∧ status (run w evs) = Alive.
Proof.
  intros Hl. destruct (run_phase w evs) as [n Hn -> Hat|_ _ Hst|tl -> _ _ Hlate].
  - apply main_at_alive in Hat as (_ & Hs & _). rewrite Hs in Hl.
    destruct (stage_early n Hn). by destruct Hl.
  - rewrite ended_lifecycle in Hl by (by destruct Hst as [->|[sg ->]]).
    by destruct Hl.
  - split; [done|]. unfold lifecycle in Hl.
    destruct (status (run w (resolved 4 ++ tl))); by destruct Hl.
Qed.

Lemma run_cons_after w evs ev evs' :
  run w (evs ++ ev :: evs') = fold_left step evs' (step (run w evs) ev).
Proof. by rewrite run_app. Qed.

(** C1, as stated, fails: the process is running, SIGINT arrives, [stop()]
    is called once and rejects, and the exit code is 1. *)
Lemma C1_stop_rejects_exit_1 :
  let evs := (resolved 4 ++ [Signal SIGINT; Settled (Rejected "stop failed")])%list in
  lifecycle (run sessions_world (resolved 4)) = Running ∧
  count Stop (st (run sessions_world evs)) = 1%nat ∧
  status (run sessions_world evs) = Exited 1 ∧
  last (stderr (st (run sessions_world evs)))
  = Some "Unhandled rejection in MCP server: stop failed".
Proof. cbv zeta. split_and!; vm_compute; reflexivity. Qed.

(** C1, amended: in the Running state a SIGINT or SIGTERM writes the
    shutdown notice and calls [stop()] exactly once; when [stop()] resolves
    the process exits with code 0; when [stop()] rejects or throws, the
    rejection reaches the [unhandledRejection] listener, which writes its
    line, and the process exits with code 1. *)
Theorem C1_signal_while_running w evs sg o :
  lifecycle (run w evs) = Running →
  let p := run w (evs ++ [Signal sg; Settled o]) in
  count Stop (st p) = 1%nat ∧
  status p = Exited (match o with Resolved => 0 | Rejected _ => 1 end) ∧
  last (stderr (st p))
  = Some (match o with
          | Resolved => shutdown_notice
          | Rejected e => "Unhandled rejection in MCP server: " +:+ e
          end).
Proof.
  intros Hrun p. subst p. rewrite run_cons_after. cbn [fold_left].
  destruct (lifecycle_late w evs (or_introl Hrun)) as [Hlate Halive].
  destruct (late_lifecycle _ Hlate) as [H|[(_ & Hsus & _)|(_ & _ & H)]];
    [congruence| |congruence].
  destruct (late_step _ (Signal sg) Hlate Halive)
    as [(Hlate' & Halive' & Hst & Hsus')|(_ & _ & _ & [])].
  rewrite Hsus in Hsus'. cbn in Hsus'.
  pose proof Hlate' as (_ & _ & Hq). destruct (Hq Halive') as (_ & Hn & Hlast).
  rewrite Hsus' in Hn, Hlast. cbn in Hn.
  destruct (late_step _ (Settled o) Hlate' Halive')
    as [(_ & _ & _ & Hnil)|(_ & _ & Hcount & Hend)]; [congruence|].
  rewrite Hcount, Hn. split; [done|]. destruct o as [|e].
  - destruct Hend as (-> & _ & ->). split; [done|]. by apply Hlast.
  - destruct Hend as (-> & _ & ->). split; [done|]. by rewrite last_snoc.
Qed.

Lemma C1_signal_while_running_witness :
  let p := run sessions_world (resolved 4 ++ [Signal SIGTERM; Settled Resolved]) in
  count Stop (st p) = 1%nat ∧
  status p = Exited 0 ∧
  last (stderr (st p)) = Some shutdown_notice.
Proof.
  apply (C1_signal_while_running sessions_world (resolved 4) SIGTERM Resolved).
  vm_compute. reflexivity.
Defined.

Lemma step_settled s c k rest o :
  step {| st := s; suspended := (c, k) :: rest; status := Alive |} (Settled o)
  = settle rest (k o s).
Proof. reflexivity. Qed.

Lemma main_at_init w p :
  main_at w 2 p →
  ∃ s, p = {| st := s; suspended := [(InitializeWithoutCluster, k_init w)];
              status := Alive |} ∧ early s ∧ unserved s.
Proof. inversion 1; eauto. Qed.

Lemma main_at_start w p :
  main_at w 3 p →
  ∃ s, p = {| st := s; suspended := [(Start, k_start)]; status := Alive |} ∧ early s.
Proof. inversion 1; eauto. Qed.

Lemma stage_init n : stage n = Initializing → n = 2%nat.
Proof. by destruct n as [|[|[|[|n]]]]. Qed.

Lemma stage_start n : stage n = Starting → n = 3%nat.
Proof. by destruct n as [|[|[|[|n]]]]. Qed.

(** C3: when [initializeWithoutCluster()] fails, the process exits with
    code 1 after the line naming the failure; the protocol server has not
    been constructed and [start()] has not been called, whatever happens
    afterwards. *)
Theorem C3_init_failure_never_serves w evs e evs' :
  lifecycle (run w evs) = Initializing →
  let p := run w (evs ++ Settled (Rejected e) :: evs') in
  status p = Exited 1 ∧
  count NewMCPServer (st p) = 0%nat ∧
  count Start (st p) = 0%nat ∧
  last (stderr (st p)) = Some ("FATAL: Failed to initialize DevOps AI Toolkit: " +:+ e).
Proof.
  intros Hinit p. subst p. rewrite run_cons_after.
  destruct (lifecycle_main_at w evs) as (n & Hn & _ & Hat & Hstage); [by auto|].
  rewrite Hinit in Hstage. symmetry in Hstage. apply stage_init in Hstage. subst n.
  destruct (main_at_init _ _ Hat) as (s & -> & Hs & [Hu1 Hu2]).
  rewrite step_settled, k_init_rejected.
  cbn [settle]. rewrite steps_ended by done. cbn [status st].
  split; [done|]. split; [done|]. split; [done|]. cbn. by rewrite last_snoc.
Qed.

Lemma C3_init_failure_never_serves_witness :
  let p := run sessions_world
             (imports_loaded ++ Settled (Rejected "no kubeconfig") :: [Signal SIGINT]) in
  status p = Exited 1 ∧
  count NewMCPServer (st p) = 0%nat ∧
  count Start (st p) = 0%nat ∧
  last (stderr (st p))
  = Some "FATAL: Failed to initialize DevOps AI Toolkit: no kubeconfig".
Proof.
  apply (C3_init_failure_never_serves sessions_world imports_loaded
           "no kubeconfig" [Signal SIGINT]).
  vm_compute. reflexivity.
Defined.

(** The checks of the session directory followed by the construction of
    the domain service: the process awaits the initialization or has exited
    with code 1. *)
Lemma imports_loaded_outcome w :
  lifecycle (run w imports_loaded) = Initializing
  ∨ status (run w imports_loaded) = Exited 1.
Proof.
  destruct (run_phase w imports_loaded) as [n Hn Heq Hat|_ _ [Hst|[sg Hst]]|tl Heq _ _ _].
  - left. apply main_at_alive in Hat as (_ & -> & _).
    apply (f_equal length) in Heq. unfold imports_loaded, resolved in Heq.
    rewrite !repeat_length in Heq. by subst n.
  - by right.
  - exfalso. revert Hst. unfold run, imports_loaded. cbn [resolved repeat fold_left].
    destruct (start_phase w) as [Hat|(_ & Hst & _)].
    + destruct (main_at_step w _ _ (Settled Resolved) Hat) as [(_ & _ & Hat')|Hend].
      * destruct (main_at_step w _ _ (Settled Resolved) Hat') as [(_ & -> & _)|Hend];
          [done|]. destruct Hend as [_ [-> _]]. done.
      * rewrite (step_ended (step _ _)) by (by eapply early_end_ended).
        destruct Hend as [_ [-> _]]. done.
    + rewrite !step_ended by (by rewrite ?step_ended; rewrite Hst). by rewrite Hst.
  - apply (f_equal length) in Heq. unfold imports_loaded, resolved in Heq.
    rewrite length_app, !repeat_length in Heq. lia.
Qed.

(** The process is alive after the two imports only if the session directory
    passed every check and the toolkit was constructed. *)
Lemma validation_alive w :
  status (run w imports_loaded) = Alive →
  configured w = true ∧ checks_answer w ∧ path_is_directory w = true
  ∧ probe_writable w = true ∧ fault w NewDotAI = None.
Proof.
  intros Halive. destruct (configured w) eqn:Hc; last first.
  { by rewrite run_unconfigured, start_process_unconfigured in Halive. }
  rewrite run_imports in Halive by done.
  destruct (fault w (ExistsSync (session_dir w))) as [e|] eqn:He.
  { by rewrite (checks_exists_throws _ _ e), in_validation_throw in Halive. }
  destruct (disk w !! session_dir w) as [n|] eqn:Hn; last first.
  { by rewrite checks_not_found in Halive. }
  destruct (fault w (StatSync (session_dir w))) as [e|] eqn:Hs.
  { by rewrite (checks_stat_throws _ _ n e), in_validation_throw in Halive. }
  destruct n as [content|].
  { by rewrite (checks_not_directory _ _ content) in Halive. }
  destruct (probe_writable w) eqn:Hw; last first.
  { apply probe_not_writable in Hw as [Hw|[Hw|(Hw & Hp & [e Hu])]].
    - by rewrite checks_write_fails in Halive by auto.
    - by rewrite checks_write_fails in Halive by auto.
    - by rewrite (checks_unlink_fails _ _ e) in Halive. }
  pose proof Hw as (Hw' & Hp & Hu)%bool_decide_eq_true.
  rewrite checks_pass, in_validation_ret, in_main_boot in Halive by done.
  destruct (fault w NewDotAI); [done|].
  split_and!; try done. by apply bool_decide_eq_true.
Qed.

(** After the two imports [main] has not returned. *)
Lemma imports_loaded_early w : early (st (run w imports_loaded)).
Proof.
  destruct (run_phase w imports_loaded) as [n _ _ Hat|_ He _|tl Heq _ _ _].
  - by apply main_at_alive in Hat as (_ & _ & ?).
  - done.
  - apply (f_equal length) in Heq. unfold imports_loaded, resolved in Heq.
    rewrite length_app, !repeat_length in Heq. lia.
Qed.

(** An invalid configuration ends the process during the validation. *)
Lemma invalid_configuration_exits w evs :
  configured w = false ∨ path_exists w = false ∨ path_is_directory w = false
  ∨ probe_writable w = false →
  run w (imports_loaded ++ evs) = run w imports_loaded
  ∧ status (run w imports_loaded) = Exited 1.
Proof.
  intros Hinvalid.
  assert (Hexit : status (run w imports_loaded) = Exited 1).
  { destruct (imports_loaded_outcome w) as [Hl|Hexit]; [|done].
    assert (Halive : status (run w imports_loaded) = Alive).
    { unfold lifecycle in Hl. by destruct (status (run w imports_loaded)). }
    destruct (validation_alive w Halive) as (Hc & _ & Hd & Hw & _).
    assert (Hx : path_exists w = true).
    { apply bool_decide_eq_true. apply bool_decide_eq_true in Hd. by rewrite Hd. }
    destruct Hinvalid as [?|[?|[?|?]]]; congruence. }
  split; [|done]. rewrite run_app. apply steps_ended. by rewrite Hexit.
Qed.

(** C4: in a run that has not reached Running, [stop()] has not been called
    and the only exit code is 1; and each of the named failures ends the
    process with code 1 without a call of [stop()]: a missing configuration
    at once, whatever the events; an invalid session directory (the path
    does not exist, is not a directory, or the probe cannot be written and
    removed) by the time the two imports are loaded, whatever the events
    that follow; and a rejection of the initialization or of the start when
    it arrives.  Once the imports are loaded the process awaits the
    initialization or has exited with 1. *)
Theorem C4_fatal_before_running w evs :
  let p := run w evs in
  (¬ reached_running w evs →
   count Stop (st p) = 0%nat ∧ ∀ c, status p = Exited c → c = 1) ∧
  (configured w = false →
   status p = Exited 1 ∧ count Stop (st p) = 0%nat) ∧
  (path_exists w = false ∨ path_is_directory w = false ∨ probe_writable w = false →
   status (run w (imports_loaded ++ evs)) = Exited 1
   ∧ count Stop (st (run w (imports_loaded ++ evs))) = 0%nat) ∧
  (lifecycle (run w imports_loaded) ≠ Initializing →
   status (run w imports_loaded) = Exited 1) ∧
  (lifecycle p = Initializing ∨ lifecycle p = Starting →
   ∀ e, status (step p (Settled (Rejected e))) = Exited 1
        ∧ count Stop (st (step p (Settled (Rejected e)))) = 0%nat).
Proof.
  cbv zeta. split_and!.
  - intros Hnot. destruct (run_phase w evs) as [n Hn -> Hat|_ He Hst|tl -> Hrun _ _].
    + apply main_at_alive in Hat as (Hst & _ & _ & Hstop & _).
      split; [done|]. intros c. by rewrite Hst.
    + destruct He as (_ & Hstop & _). split; [done|].
      intros c. destruct Hst as [->|[sg ->]]; congruence.
    + destruct Hnot. exists (resolved 4). split; [by apply prefix_app_r|done].
  - intros Hc. by rewrite run_unconfigured, start_process_unconfigured.
  - intros Hinvalid.
    destruct (invalid_configuration_exits w evs) as [-> Hexit]; [tauto|].
    split; [done|]. by destruct (imports_loaded_early w) as (_ & ? & _).
  - intros Hnot. by destruct (imports_loaded_outcome w).
  - intros Hl e.
    destruct (lifecycle_main_at w evs) as (n & Hn & _ & Hat & Hstage); [tauto|].
    rewrite Hstage in Hl. destruct Hl as [->%stage_init| ->%stage_start].
    + destruct (main_at_init _ _ Hat) as (s & -> & Hs & _).
      rewrite step_settled, k_init_rejected.
      split; [done|]. by destruct Hs as (_ & ? & _).
    + destruct (main_at_start _ _ Hat) as (s & -> & Hs).
      rewrite step_settled, k_start_rejected.
      split; [done|]. by destruct Hs as (_ & ? & _).
Qed.

Lemma C4_fatal_before_running_witness :
  ¬ reached_running unset_world [] ∧
  count Stop (st (run unset_world [])) = 0%nat ∧
  status (run unset_world []) = Exited 1 ∧
  status (run file_world (imports_loaded ++ [Signal SIGINT])) = Exited 1 ∧
  count Stop (st (run file_world (imports_loaded ++ [Signal SIGINT]))) = 0%nat ∧
  status (run sticky_world (imports_loaded ++ [Signal SIGINT])) = Exited 1 ∧
  status (run unset_world imports_loaded) = Exited 1 ∧
  lifecycle (run sessions_world imports_loaded) = Initializing ∧
  status (step (run sessions_world imports_loaded) (Settled (Rejected "no kubeconfig")))
  = Exited 1.
Proof.
  assert (Hnot : ¬ reached_running unset_world []).
  { intros (pre & ->%prefix_nil_inv & Hrun). vm_compute in Hrun. discriminate. }
  assert (Hinit : lifecycle (run sessions_world imports_loaded) = Initializing)
    by (vm_compute; reflexivity).
  assert (Hfile : path_is_directory file_world = false) by (vm_compute; reflexivity).
  assert (Hsticky : probe_writable sticky_world = false) by (vm_compute; reflexivity).
  destruct (C4_fatal_before_running unset_world []) as (Hstop & Hunset & _ & Hconfig & _).
  destruct (C4_fatal_before_running file_world [Signal SIGINT]) as (_ & _ & Hnodir & _).
  destruct (C4_fatal_before_running sticky_world [Signal SIGINT]) as (_ & _ & Hnowrite & _).
  destruct (C4_fatal_before_running sessions_world imports_loaded) as (_ & _ & _ & _ & Hreject).
  split; [exact Hnot|]. split; [exact (proj1 (Hstop Hnot))|].
  split; [exact (proj1 (Hunset eq_refl))|].
  split; [exact (proj1 (Hnodir (or_intror (or_introl Hfile))))|].
  split; [exact (proj2 (Hnodir (or_intror (or_introl Hfile))))|].
  split; [exact (proj1 (Hnowrite (or_intror (or_intror Hsticky))))|].
  split; [apply Hconfig; vm_compute; discriminate|].
  split; [exact Hinit|]. apply (Hreject (or_introl Hinit)).
Defined.

Lemma step_signal_late p sg :
  late p → status p = Alive →
  step p (Signal sg)
  = {| st := log Stop (add_stderr shutdown_notice (st p));
       suspended := (suspended p ++ [(Stop, k_stop)])%list; status := Alive |}.
Proof.
  intros (_ & Hl & _) Hp. destruct (late_listeners _ Hl) as (_ & _ & Hi & Ht).
  unfold step, emit_signal. rewrite Hp.
  destruct sg; [rewrite Hi|rewrite Ht]; cbn; by rewrite Hp.
Qed.

(** C6: the SIGINT listener and the SIGTERM listener are the same function
    of the state; once they are installed, a run is the same whichever of the
    two signals arrives; and what either does is to write the shutdown
    notice, call [stop()], await it, and exit with code 0 when it resolves. *)
Theorem C6_signal_handlers_identical :
  (∀ arg arg' s,
     listener_body SigintShutdown arg s = listener_body SigtermShutdown arg' s) ∧
  (∀ w evs evs',
     lifecycle (run w evs) = Running ∨ lifecycle (run w evs) = ShuttingDown →
     run w (evs ++ Signal SIGINT :: evs') = run w (evs ++ Signal SIGTERM :: evs')) ∧
  (∀ w evs sg,
     lifecycle (run w evs) = Running ∨ lifecycle (run w evs) = ShuttingDown →
     let p := run w evs in
     let q := step p (Signal sg) in
     stderr (st q) = (stderr (st p) ++ [shutdown_notice])%list ∧
     calls (st q) = (calls (st p) ++ [Stop])%list ∧
     fs (st q) = fs (st p) ∧
     lifecycle q = ShuttingDown ∧
     step q (Settled Resolved)
     = {| st := st q; suspended := tail (suspended q); status := Exited 0 |}).
Proof.
  split_and!.
  - reflexivity.
  - intros w evs evs' Hl. destruct (lifecycle_late _ _ Hl) as [Hlate Halive].
    rewrite !run_cons_after. by rewrite !step_signal_late.
  - intros w evs sg Hl p q. subst p q.
    destruct (lifecycle_late _ _ Hl) as [Hlate Halive].
    rewrite step_signal_late by done. cbn [st stderr calls fs log add_stderr].
    split_and!; try done.
    + pose proof Hlate as (_ & _ & H). destruct (H Halive) as (Hk & _).
      unfold lifecycle. cbn [status suspended].
      destruct (suspended (run w evs)) as [|[c k] rest]; [done|].
      apply Forall_cons in Hk as [[Hc _] _]. cbn in Hc. by subst c.
    + pose proof Hlate as (_ & _ & H). destruct (H Halive) as (Hk & _).
      destruct (suspended (run w evs)) as [|[c k] rest]; [done|].
      apply Forall_cons in Hk as [[_ Hk] _]. cbn in Hk.
      cbn [app]. by rewrite step_settled, Hk.
Qed.

Lemma C6_signal_handlers_identical_witness :
  run sessions_world (resolved 4 ++ Signal SIGINT :: [Settled Resolved])
  = run sessions_world (resolved 4 ++ Signal SIGTERM :: [Settled Resolved]) ∧
  status (run sessions_world (resolved 4 ++ Signal SIGINT :: [Settled Resolved]))
  = Exited 0.
Proof.
  destruct C6_signal_handlers_identical as (_ & Hsame & _).
  split; [|vm_compute; reflexivity].
  apply (Hsame sessions_world (resolved 4) [Settled Resolved]).
  left. vm_compute. reflexivity.
Defined.

(** C7: a listener for SIGINT or SIGTERM is registered only in a run in
    which [start()] has resolved; so while the process is Validating,
    Initializing or Starting no such listener is installed, a signal ends the
    process by its default action, and [stop()] is not called, whatever
    happens afterwards. *)
Theorem C7_no_shutdown_listener_before_start w evs :
  let p := run w evs in
  (∀ sg, listeners_for (OnSignal sg) (st p) ≠ [] →
         ∃ pre post, evs = (pre ++ Settled Resolved :: post)%list
                     ∧ lifecycle (run w pre) = Starting) ∧
  (lifecycle p = Validating ∨ lifecycle p = Initializing ∨ lifecycle p = Starting →
   (∀ sg, listeners_for (OnSignal sg) (st p) = []) ∧
   ∀ sg evs', let q := run w (evs ++ Signal sg :: evs') in
              status q = Killed sg ∧ count Stop (st q) = 0%nat).
Proof.
  cbv zeta. split.
  - intros sg Hreg.
    destruct (run_phase w evs) as [n Hn -> Hat|_ He _|tl -> _ Hat _].
    + apply main_at_alive in Hat as (_ & _ & He).
      destruct (early_listeners _ He) as (_ & _ & Hnone). by rewrite Hnone in Hreg.
    + destruct (early_listeners _ He) as (_ & _ & Hnone). by rewrite Hnone in Hreg.
    + exists (resolved 3), tl. split; [done|].
      by apply main_at_alive in Hat as (_ & ? & _).
  - intros Hl. destruct (lifecycle_main_at w evs Hl) as (n & Hn & _ & Hat & _).
    destruct (main_at_alive _ _ _ Hat) as (_ & _ & He).
    split; [by destruct (early_listeners _ He) as (_ & _ & ?)|].
    intros sg evs'. rewrite run_cons_after.
    destruct (main_at_step w n _ (Signal sg) Hat) as [(? & _)|[Hq Hk]]; [done|].
    rewrite steps_ended by (by rewrite Hk). split; [done|].
    by destruct Hq as (_ & ? & _).
Qed.

Lemma C7_no_shutdown_listener_before_start_witness :
  lifecycle (run sessions_world (resolved 3)) = Starting ∧
  listeners_for (OnSignal SIGINT) (st (run sessions_world (resolved 3))) = [] ∧
  status (run sessions_world (resolved 3 ++ Signal SIGINT :: [Settled Resolved]))
  = Killed SIGINT ∧
  count Stop (st (run sessions_world (resolved 3 ++ Signal SIGINT :: [Settled Resolved])))
  = 0%nat.
Proof.
  assert (Hstart : lifecycle (run sessions_world (resolved 3)) = Starting)
    by (vm_compute; reflexivity).
  destruct (C7_no_shutdown_listener_before_start sessions_world (resolved 3))
    as [_ Hbefore].
  destruct (Hbefore (or_intror (or_intror Hstart))) as [Hnone Hkill].
  split; [exact Hstart|]. split; [exact (Hnone SIGINT)|].
  exact (Hkill SIGINT [Settled Resolved]).
Defined.

(** C8: nothing is ever written to stdout; and whenever the process calls
    [process.exit], a line has been written to stderr on the way: the exit at
    the module load follows the lines of the missing configuration, every
    later step that exits writes a line first, except the resumption of a
    signal listener after [stop()] resolved, whose listener wrote the
    shutdown notice, the last line on stderr, before it awaited. *)
Theorem C8_diagnostics_on_stderr w evs :
  let p := run w evs in
  stdout (st p) = [] ∧
  (status (start_process w) ≠ Alive →
   status (start_process w) = Exited 1 ∧
   stderr (st (start_process w))
   = validating_line :: diagnostic MissingConfig (session_dir w)) ∧
  (∀ ev c,
     status p = Alive → status (step p ev) = Exited c →
     (length (stderr (st p)) < length (stderr (st (step p ev))))%nat
     ∨ (ev = Settled Resolved ∧ c = 0 ∧ lifecycle p = ShuttingDown
        ∧ last (stderr (st p)) = Some shutdown_notice)).
Proof.
  cbv zeta. split_and!.
  - destruct (run_phase w evs) as [n Hn -> Hat|_ He _|tl -> _ _ Hlate].
    + by apply main_at_alive in Hat as (_ & _ & ? & _).
    + by destruct He.
    + by destruct Hlate.
  - intros Hend. destruct (start_phase w) as [Hat|(_ & ? & _ & ? & _)]; [|done].
    by apply main_at_alive in Hat as (? & _).
  - intros ev c Halive Hexit.
    destruct (run_phase w evs) as [n Hn -> Hat|_ _ Hst|tl -> _ _ Hlate].
    + left. destruct (main_at_step w n _ ev Hat) as [(_ & ? & _)|[_ Hend]];
        [congruence|].
      destruct ev; [by destruct Hend| |by destruct Hend..].
      rewrite Hend in Hexit. discriminate.
    + destruct Hst as [Hst|[sg Hst]]; rewrite Hst in Halive; discriminate.
    + destruct (late_step _ ev Hlate Halive) as [(_ & ? & _)|(_ & _ & _ & Hend)];
        [congruence|].
      destruct ev as [[|e]|sg|e|r].
      * right. destruct Hend as (Hc & Hsus & _). rewrite Hc in Hexit.
        injection Hexit as <-. split; [done|]. split; [done|].
        destruct (late_lifecycle _ Hlate) as [H|[(_ & ? & _)|(_ & _ & H)]].
        -- unfold lifecycle in H. by rewrite Halive in H; destruct (suspended _) as [|[[] ?] ?].
        -- done.
        -- split; [done|]. destruct Hlate as (_ & _ & Hl).
           destruct (Hl Halive) as (_ & _ & Hlast). by apply Hlast.
      * left. destruct Hend as (_ & _ & ->). rewrite length_app. cbn. lia.
      * done.
      * left. destruct Hend as (_ & ->). rewrite length_app. cbn. lia.
      * left. destruct Hend as (_ & ->). rewrite length_app. cbn. lia.
Qed.

Lemma C8_diagnostics_on_stderr_witness :
  stdout (st (run sessions_world (resolved 3 ++ [Settled (Rejected "port in use")]))) = [] ∧
  status (run sessions_world (resolved 3 ++ [Settled (Rejected "port in use")])) = Exited 1 ∧
  (length (stderr (st (run sessions_world (resolved 3))))
   < length (stderr (st (run sessions_world
                           (resolved 3 ++ [Settled (Rejected "port in use")])))))%nat.
Proof.
  assert (Hexit : status (step (run sessions_world (resolved 3))
                            (Settled (Rejected "port in use"))) = Exited 1)
    by (vm_compute; reflexivity).
  destruct (C8_diagnostics_on_stderr sessions_world
              (resolved 3 ++ [Settled (Rejected "port in use")])) as (Hout & _ & _).
  destruct (C8_diagnostics_on_stderr sessions_world (resolved 3)) as (_ & _ & Hline).
  split; [exact Hout|]. rewrite run_snoc. split; [exact Hexit|].
  destruct (Hline _ _ ltac:(vm_compute; reflexivity) Hexit) as [Hlt|(Hev & _)];
    [exact Hlt|discriminate Hev].
Defined.

(** * Further properties *)

(** ** What the checks call and touch *)

Lemma same_but_refl p m : same_but p m m.
Proof. by intros path _. Qed.

Lemma same_but_trans p m1 m2 m3 : same_but p m1 m2 → same_but p m2 m3 → same_but p m1 m3.
Proof. intros H1 H2 path Hne. by rewrite H2, H1. Qed.

Lemma same_but_insert p x m : same_but p m (<[p := x]> m).
Proof. intros path Hne. by rewrite lookup_insert_ne. Qed.

Lemma same_but_delete p m : same_but p m (delete p m).
Proof. intros path Hne. by rewrite lookup_delete_ne. Qed.

Lemma checks_effects w s :
  match checks w (session_dir w) s with
  | Ret s' _ =>
      calls s' = (calls s ++ check_calls w)%list ∧ same_but (probe_file w) (fs s) (fs s')
  | Throw s' _ | Exit s' _ =>
      (∃ j, calls s' = (calls s ++ take j (check_calls w))%list)
      ∧ same_but (probe_file w) (fs s) (fs s')
  | Suspend _ _ _ => False
  end.
Proof.
  unfold checks, probe, check_calls, probe_file. cbn.
  repeat (split_match; cbn).
  all: rewrite <- ?app_assoc; cbn.
  all: split;
    [ first [ reflexivity | by exists 1%nat | by exists 2%nat | by exists 3%nat
            | by exists 4%nat ]
    | eauto using same_but_refl, same_but_insert, same_but_delete, same_but_trans ].
Qed.

(** ** What one step calls and touches *)

(** An event other than a settlement, while only the two listeners of the
    module body are registered, leaves the calls and the file system. *)
Lemma early_event_effects p ev :
  status p = Alive → early (st p) → (∀ o, ev ≠ Settled o) →
  calls (st (step p ev)) = calls (st p) ∧ fs (st (step p ev)) = fs (st p).
Proof.
  intros Hp He Hev. destruct (early_listeners _ He) as (Hu & Hr & Hs).
  unfold step. rewrite Hp. destruct ev as [o|sg|e|r].
  - by destruct (Hev o).
  - unfold emit_signal. by rewrite Hs.
  - unfold emit_uncaught. rewrite Hu. cbn. by rewrite Hp.
  - unfold emit_unhandled. rewrite Hr. cbn. by rewrite Hp.
Qed.

Lemma main_at_step_effects w n p ev :
  main_at w n p →
  same_but (probe_file w) (fs (st p)) (fs (st (step p ev))) ∧
  ∃ j, calls (st (step p ev)) = (calls (st p) ++ take j (next_calls w n))%list
       ∧ (status (step p ev) = Alive → j = length (next_calls w n)).
Proof.
  intros Hat. destruct (main_at_alive _ _ _ Hat) as (Hp & _ & He).
  assert (Hother : (∀ o, ev ≠ Settled o) →
    same_but (probe_file w) (fs (st p)) (fs (st (step p ev))) ∧
    ∃ j, calls (st (step p ev)) = (calls (st p) ++ take j (next_calls w n))%list
         ∧ (status (step p ev) = Alive → j = length (next_calls w n))).
  { intros Hev. destruct (early_event_effects p ev Hp He Hev) as [-> ->].
    split; [apply same_but_refl|]. exists 0%nat. rewrite app_nil_r. split; [done|].
    intros Halive. destruct (main_at_step w n p ev Hat) as [(-> & _)|Hend].
    - by destruct (Hev Resolved).
    - by apply early_end_ended in Hend. }
  destruct ev as [o|sg|e|r]; [|by apply Hother..]. clear Hother.
  destruct Hat as [s Hs Hu|s Hs Hu|s Hs Hu|s Hs]; rewrite step_settled; cbn [st].
  - destruct o as [|e].
    + rewrite k_fs_resolved. cbn. split; [apply same_but_refl|]. by exists 1%nat.
    + rewrite k_fs_rejected. cbn. split; [apply same_but_refl|].
      exists 0%nat. by rewrite app_nil_r.
  - destruct o as [|e].
    + rewrite k_path_resolved. pose proof (checks_effects w s) as Hc.
      destruct (checks w (session_dir w) s) as [s' []|s' e|s' c|]; [| | |done].
      * destruct Hc as [Hc Hfs]. rewrite in_validation_ret, in_main_boot.
        destruct (fault w NewDotAI) as [e|]; cbn; (split; [done|]); rewrite Hc.
        -- exists 5%nat. by rewrite <- app_assoc.
        -- exists 6%nat. by rewrite <- !app_assoc.
      * destruct Hc as [[j Hc] Hfs]. rewrite in_validation_throw. cbn.
        split; [done|]. rewrite Hc.
        exists (j `min` 4)%nat. split; [|done]. f_equal.
        by destruct j as [|[|[|[|[|j]]]]].
      * destruct Hc as [[j Hc] Hfs]. rewrite in_validation_exit. cbn.
        split; [done|]. rewrite Hc.
        exists (j `min` 4)%nat. split; [|done]. f_equal.
        by destruct j as [|[|[|[|[|j]]]]].
    + rewrite k_path_rejected. cbn. split; [apply same_but_refl|].
      exists 0%nat. by rewrite app_nil_r.
  - destruct o as [|e].
    + rewrite k_init_resolved. cbn zeta.
      destruct (fault w NewMCPServer) as [e|]; cbn; (split; [apply same_but_refl|]).
      * by exists 1%nat.
      * exists 2%nat. by rewrite <- app_assoc.
    + rewrite k_init_rejected. cbn. split; [apply same_but_refl|].
      exists 0%nat. by rewrite app_nil_r.
  - destruct o as [|e].
    + rewrite k_start_resolved. cbn. split; [apply same_but_refl|].
      exists 0%nat. by rewrite app_nil_r.
    + rewrite k_start_rejected. cbn. split; [apply same_but_refl|].
      exists 0%nat. by rewrite app_nil_r.
Qed.

(** After [main] returned a signal adds one call of [stop()], and no other
    event calls anything; the file system is left. *)
Lemma late_step_effects p ev :
  late p → status p = Alive →
  fs (st (step p ev)) = fs (st p) ∧
  calls (st (step p ev))
  = (calls (st p) ++ match ev with Signal _ => [Stop] | _ => [] end)%list.
Proof.
  intros Hlate Hp. pose proof Hlate as (_ & Hl & Hc).
  destruct (Hc Hp) as (Hk & _ & _).
  destruct (late_listeners _ Hl) as (Hlu & Hlr & Hli & Hlt).
  destruct ev as [o|sg|e|r].
  - rewrite app_nil_r. unfold step. rewrite Hp.
    destruct (suspended p) as [|[c k] rest]; [done|].
    apply Forall_cons in Hk as [[_ Hk] _]. cbn in Hk. rewrite Hk.
    destruct o as [|e]; cbn; [done|].
    unfold emit_unhandled. cbn. by rewrite Hlr.
  - by rewrite step_signal_late.
  - rewrite app_nil_r. unfold step, emit_uncaught. rewrite Hp, Hlu. cbn. by rewrite Hp.
  - rewrite app_nil_r. unfold step, emit_unhandled. rewrite Hp, Hlr. cbn. by rewrite Hp.
Qed.

(** ** The calls and the file system of every run *)

Lemma calls_at_next w n :
  (n ≤ 3)%nat →
  (take (calls_at n) (boot_calls w) ++ next_calls w n)%list
  = take (calls_at (S n)) (boot_calls w).
Proof. intros Hn. by destruct n as [|[|[|[|n]]]]; [| | | |lia]. Qed.

Lemma calls_at_next_take w n j :
  (n ≤ 3)%nat →
  ∃ k, (take (calls_at n) (boot_calls w) ++ take j (next_calls w n))%list
       = take k (boot_calls w).
Proof.
  intros Hn. destruct n as [|[|[|[|n]]]]; [| | | |lia].
  - exists (1 + j `min` 1)%nat. by destruct j as [|[|j]].
  - exists (2 + j `min` 6)%nat. by destruct j as [|[|[|[|[|[|[|j]]]]]]].
  - exists (8 + j `min` 2)%nat. by destruct j as [|[|[|j]]].
  - exists 10%nat. by destruct j.
Qed.

Lemma run_trace w evs :
  same_but (probe_file w) (disk w) (fs (st (run w evs))) ∧
  ((∃ n, (n ≤ 3)%nat ∧ evs = resolved n ∧ main_at w n (run w evs)
         ∧ calls (st (run w evs)) = take (calls_at n) (boot_calls w))
   ∨ (status (run w evs) ≠ Alive ∧ early (st (run w evs))
      ∧ ∃ k, calls (st (run w evs)) = take k (boot_calls w))
   ∨ (late (run w evs)
      ∧ ∃ m, calls (st (run w evs)) = (boot_calls w ++ repeat Stop m)%list)).
Proof.
  induction evs as [|ev evs [IHfs IH]] using rev_ind.
  - unfold run. cbn [fold_left]. destruct (configured w) eqn:Hc.
    + rewrite start_process_configured by done. split; [apply same_but_refl|].
      left. exists 0%nat. split_and!; try done; [lia|by constructor].
    + rewrite start_process_unconfigured by done. split; [apply same_but_refl|].
      right. left. split_and!; try done. by exists 0%nat.
  - rewrite run_snoc.
    destruct IH as [(n & Hn & -> & Hat & Hcalls)
                   |[(Hend & He & Hcalls)|(Hlate & m & Hcalls)]].
    + destruct (main_at_step_effects w n _ ev Hat) as (Hfs & j & Hj & Hlen).
      split; [by eapply same_but_trans|]. rewrite Hj, Hcalls.
      destruct (main_at_step w n _ ev Hat) as [(-> & Halive & Hm)|Hq].
      * rewrite (Hlen Halive), firstn_all, calls_at_next by done.
        destruct (decide (n = 3)%nat) as [->|].
        -- right. right. split; [apply Hm|]. by exists 0%nat.
        -- left. exists (S n). rewrite resolved_snoc. split_and!; try done; [lia|].
           by destruct n as [|[|[|n]]]; [| | |lia].
      * right. left. split_and!.
        -- by eapply early_end_ended.
        -- apply Hq.
        -- by apply calls_at_next_take.
    + rewrite step_ended by done. split; [done|]. right. by left.
    + destruct (status (run w evs)) eqn:Hst.
      * destruct (late_step_effects _ ev Hlate Hst) as [-> ->].
        split; [done|]. right. right. split_and!.
        -- destruct (late_step _ ev Hlate Hst) as [(? & _)|?]; [done|].
           by eapply late_end_late.
        -- rewrite Hcalls, <- app_assoc. destruct ev as [| | |];
             [exists m|exists (S m)|exists m..]; rewrite ?app_nil_r; try done.
           by rewrite <- repeat_cons.
      * rewrite step_ended by (by rewrite Hst). split; [done|]. right. right. eauto.
      * rewrite step_ended by (by rewrite Hst). split; [done|]. right. right. eauto.
Qed.

(** ** Further properties of every run *)

(** The calls made while [main] is suspended. *)
Lemma suspended_calls w evs :
  lifecycle (run w evs) = Validating ∨ lifecycle (run w evs) = Initializing
  ∨ lifecycle (run w evs) = Starting →
  ∃ n, (n ≤ 3)%nat ∧ evs = resolved n ∧ main_at w n (run w evs)
       ∧ lifecycle (run w evs) = stage n
       ∧ calls (st (run w evs)) = take (calls_at n) (boot_calls w).
Proof.
  intros Hl. destruct (run_trace w evs) as [_ [(n & Hn & -> & Hat & Hcalls)|[(Hst & _)|(Hlate & _)]]].
  - exists n. split_and!; try done. by apply main_at_alive in Hat as (_ & ? & _).
  - rewrite ended_lifecycle in Hl by done. by destruct Hl as [?|[?|?]].
  - destruct (late_lifecycle _ Hlate) as [H|[(_ & _ & H)|(_ & _ & H)]];
      rewrite H in Hl; by destruct Hl as [?|[?|?]].
Qed.

Lemma boot_calls_NoDup w : NoDup (boot_calls w).
Proof.
  unfold boot_calls, check_calls. cbn [app].
  repeat (apply NoDup_cons; split;
          [intros H; repeat (apply elem_of_cons in H as [H|H]; [discriminate|]);
           by apply elem_of_nil in H|]).
  apply NoDup_nil_2.
Qed.

Lemma count_calls c s : count c s = length (filter (λ x, x = c) (calls s)).
Proof. done. Qed.

Lemma filter_eq_absent (c : call) l : c ∉ l → filter (λ x, x = c) l = [].
Proof.
  induction l as [|x l IH]; [done|]. intros [Hx Hl]%not_elem_of_cons.
  rewrite filter_cons. destruct (decide (x = c)); [done|]. by apply IH.
Qed.

Lemma filter_eq_NoDup (c : call) l :
  NoDup l → (length (filter (λ x, x = c) l) ≤ 1)%nat.
Proof.
  induction 1 as [|x l Hx Hl IH]; [cbn; lia|].
  rewrite filter_cons. destruct (decide (x = c)) as [->|]; [|exact IH].
  rewrite filter_eq_absent by done. cbn. lia.
Qed.

Lemma filter_eq_repeat (c d : call) m : c ≠ d → filter (λ x, x = c) (repeat d m) = [].
Proof.
  intros Hc. induction m as [|m IH]; [done|].
  cbn [repeat]. rewrite filter_cons. by destruct (decide (d = c)).
Qed.

Lemma NoDup_take_prefix {A} k (l : list A) : NoDup l → NoDup (take k l).
Proof.
  intros Hl. rewrite <- (take_drop k l) in Hl. by apply NoDup_app in Hl as (? & _).
Qed.

(** X1: when the disk holds no entry that names the probe file
    [.mcp-test-write] of the session directory as the process starts, the
    process adds or removes nothing but that entry: at every moment of every
    run, whatever the environment does, the file system without the probe
    entry is the disk the process was started on. *)
Theorem X1_only_probe_path_touched w evs :
  probe_absent w →
  delete (probe_file w) (fs (st (run w evs))) = disk w.
Proof.
  intros Habsent. destruct (run_trace w evs) as [Hfs _].
  apply map_eq. intros path. destruct (decide (path = probe_file w)) as [->|Hne].
  - rewrite lookup_delete_eq. symmetry. by apply Habsent.
  - rewrite lookup_delete_ne by done. by apply Hfs.
Qed.

Lemma X1_only_probe_path_touched_witness :
  fs (st (run sticky_world imports_loaded)) !! probe_file sticky_world
  = Some (File "test") ∧
  delete (probe_file sticky_world) (fs (st (run sticky_world imports_loaded)))
  = disk sticky_world.
Proof.
  split; [vm_compute; reflexivity|].
  apply X1_only_probe_path_touched. exact sticky_probe_absent.
Defined.

(** X2: in every run the external calls are made in the order of the source:
    the calls made so far are a prefix of the two imports, the four checks,
    the two constructors, the initialization and the start, followed by the
    [stop()] calls, which only follow the complete prefix; so no call other
    than [stop()] is ever made twice. *)
Theorem X2_calls_in_source_order w evs :
  (∃ k m, calls (st (run w evs)) = (take k (boot_calls w) ++ repeat Stop m)%list
          ∧ ((0 < m)%nat → (length (boot_calls w) ≤ k)%nat))
  ∧ ∀ c, c ≠ Stop → (count c (st (run w evs)) ≤ 1)%nat.
Proof.
  assert (Hcalls : ∃ k m,
             calls (st (run w evs)) = (take k (boot_calls w) ++ repeat Stop m)%list
             ∧ ((0 < m)%nat → (length (boot_calls w) ≤ k)%nat)).
  { destruct (run_trace w evs) as [_ [(n & _ & _ & _ & ->)|[(_ & _ & k & ->)|(_ & m & ->)]]].
    - exists (calls_at n), 0%nat. rewrite app_nil_r. split; [done|lia].
    - exists k, 0%nat. rewrite app_nil_r. split; [done|lia].
    - exists (length (boot_calls w)), m. by rewrite firstn_all. }
  split; [done|]. intros c Hc. destruct Hcalls as (k & m & Heq & _).
  rewrite count_calls, Heq, filter_app, length_app, (filter_eq_repeat c Stop) by done.
  cbn [length]. rewrite Nat.add_0_r.
  apply filter_eq_NoDup, NoDup_take_prefix, boot_calls_NoDup.
Qed.

(** ** The failures of the start-up that are caught by the outer [try] *)

(** X3: when the promise of [mcpServer.start()] is rejected, the outer
    [catch] of [main] writes [Failed to start DevOps AI Toolkit MCP server:]
    with the error to stderr and the process exits with 1; every call of the
    start-up has been made once, in order, no signal listener has been
    registered, and the file system is as it was. *)
Theorem X3_start_rejected w evs e :
  lifecycle (run w evs) = Starting →
  let p := run w evs in
  let q := step p (Settled (Rejected e)) in
  status q = Exited 1 ∧
  stderr (st q)
  = (stderr (st p) ++ ["Failed to start DevOps AI Toolkit MCP server: " +:+ e])%list ∧
  calls (st q) = boot_calls w ∧
  fs (st q) = fs (st p) ∧
  ∀ sg, listeners_for (OnSignal sg) (st q) = [].
Proof.
  intros Hl p q. subst p q.
  destruct (suspended_calls w evs) as (n & _ & _ & Hat & Hstage & Hcalls); [by auto|].
  rewrite Hl in Hstage. symmetry in Hstage. apply stage_start in Hstage as ->.
  apply main_at_start in Hat as (s & Heq & He). rewrite Heq in *.
  rewrite step_settled, k_start_rejected. cbn [settle st status] in *.
  split_and!; try done.
  by apply early_listeners, early_add_stderr.
Qed.

Lemma X3_start_rejected_witness :
  let p := run sessions_world (resolved 3) in
  let q := step p (Settled (Rejected "listen EADDRINUSE")) in
  status q = Exited 1 ∧
  stderr (st q)
  = (stderr (st p)
     ++ ["Failed to start DevOps AI Toolkit MCP server: " +:+ "listen EADDRINUSE"])%list ∧
  calls (st q) = boot_calls sessions_world ∧
  fs (st q) = fs (st p) ∧
  ∀ sg, listeners_for (OnSignal sg) (st q) = [].
Proof. apply X3_start_rejected. vm_compute. reflexivity. Defined.

(** X4: when the session directory passes the validation and the constructor
    of the toolkit throws, the outer [catch] of [main] reports it: stderr
    holds the line of the validation and [Failed to start DevOps AI Toolkit
    MCP server:] with the error, the process exits with 1, the
    initialization is not called, and the probe file is gone. *)
Theorem X4_toolkit_constructor_throws w e :
  configured w = true → checks_answer w →
  path_is_directory w = true → probe_writable w = true →
  fault w NewDotAI = Some e →
  let p := run w imports_loaded in
  status p = Exited 1 ∧
  stderr (st p)
  = [validating_line; validated_line w;
     "Failed to start DevOps AI Toolkit MCP server: " +:+ e] ∧
  calls (st p) = take 7 (boot_calls w) ∧
  fs (st p) !! probe_file w = None.
Proof.
  intros Hc [He Hs] Hd%bool_decide_eq_true (Hw & Hp & Hu)%bool_decide_eq_true Hf p.
  subst p. rewrite run_imports by done.
  rewrite checks_pass, in_validation_ret, in_main_boot, Hf by done.
  cbn [settle st status state_with add_stderr log fs stderr calls state_path state_fs].
  split_and!; try done. apply lookup_delete_eq.
Qed.

Lemma X4_toolkit_constructor_throws_witness :
  let p := run broken_toolkit_world imports_loaded in
  status p = Exited 1 ∧
  stderr (st p)
  = [validating_line; validated_line broken_toolkit_world;
     "Failed to start DevOps AI Toolkit MCP server: " +:+ "Cannot find module"] ∧
  calls (st p) = take 7 (boot_calls broken_toolkit_world) ∧
  fs (st p) !! probe_file broken_toolkit_world = None.
Proof.
  apply X4_toolkit_constructor_throws; [reflexivity|by split|vm_compute; reflexivity..].
Defined.

(** X5: when the initialization resolves and the constructor of the protocol
    server throws, the two lines of the successful initialization are
    followed by [Failed to start DevOps AI Toolkit MCP server:] with the
    error, the process exits with 1, and [start()] is not called. *)
Theorem X5_server_constructor_throws w evs e :
  lifecycle (run w evs) = Initializing → fault w NewMCPServer = Some e →
  let p := run w evs in
  let q := step p (Settled Resolved) in
  status q = Exited 1 ∧
  stderr (st q)
  = (stderr (st p)
     ++ ["DevOps AI Toolkit initialized successfully";
         "Cluster connectivity will be checked when needed by individual tools";
         "Failed to start DevOps AI Toolkit MCP server: " +:+ e])%list ∧
  calls (st q) = take 9 (boot_calls w) ∧
  count Start (st q) = 0%nat.
Proof.
  intros Hl Hf p q. subst p q.
  destruct (suspended_calls w evs) as (n & _ & _ & Hat & Hstage & Hcalls); [by auto|].
  rewrite Hl in Hstage. symmetry in Hstage. apply stage_init in Hstage as ->.
  apply main_at_init in Hat as (s & Heq & He & Hu). rewrite Heq in *.
  rewrite step_settled, k_init_resolved, Hf. cbn [settle st status] in *.
  split_and!.
  - done.
  - cbn. by rewrite <- !app_assoc.
  - cbn. by rewrite Hcalls.
  - rewrite count_add_stderr, count_log, !count_add_stderr.
    destruct Hu as [_ ->]. by destruct (decide (NewMCPServer = Start)).
Qed.

Lemma X5_server_constructor_throws_witness :
  let p := run broken_server_world imports_loaded in
  let q := step p (Settled Resolved) in
  status q = Exited 1 ∧
  stderr (st q)
  = (stderr (st p)
     ++ ["DevOps AI Toolkit initialized successfully";
         "Cluster connectivity will be checked when needed by individual tools";
         "Failed to start DevOps AI Toolkit MCP server: " +:+ "invalid server config"])%list ∧
  calls (st q) = take 9 (boot_calls broken_server_world) ∧
  count Start (st q) = 0%nat.
Proof. apply X5_server_constructor_throws; vm_compute; reflexivity. Defined.

(** X6: when the promise of one of the two dynamic imports is rejected, the
    [catch] of the validation reports it as a failed validation: stderr
    holds [FATAL: Session directory validation failed:] with the error after
    the first line, the process exits with 1, no check of the session
    directory has been made, and the file system is untouched. *)
Theorem X6_import_rejected w evs e :
  lifecycle (run w evs) = Validating →
  let q := step (run w evs) (Settled (Rejected e)) in
  status q = Exited 1 ∧
  stderr (st q)
  = [validating_line; "FATAL: Session directory validation failed: " +:+ e] ∧
  calls (st q) = take (S (length evs)) [ImportModule "fs"; ImportModule "path"] ∧
  fs (st q) = disk w.
Proof.
  intros Hl q. subst q.
  destruct (configured w) eqn:Hc; last first.
  { rewrite run_unconfigured in Hl by done.
    rewrite ended_lifecycle in Hl; [done|].
    by rewrite start_process_unconfigured. }
  destruct (suspended_calls w evs) as (n & _ & -> & _ & Hstage & _); [by auto|].
  rewrite Hl in Hstage. destruct n as [|[|[|[|n]]]]; try done.
  - unfold run. cbn [resolved repeat fold_left].
    by rewrite start_process_configured, step_settled, k_fs_rejected.
  - unfold run. cbn [resolved repeat fold_left].
    rewrite start_process_configured, step_settled, k_fs_resolved by done.
    cbn [settle]. by rewrite step_settled, k_path_rejected.
Qed.

Lemma X6_import_rejected_witness :
  let q := step (run sessions_world [Settled Resolved])
             (Settled (Rejected "Cannot find module path")) in
  status q = Exited 1 ∧
  stderr (st q)
  = [validating_line;
     "FATAL: Session directory validation failed: " +:+ "Cannot find module path"] ∧
  calls (st q) = [ImportModule "fs"; ImportModule "path"] ∧
  fs (st q) = disk sessions_world.
Proof. apply (X6_import_rejected sessions_world [Settled Resolved]). vm_compute. reflexivity. Defined.

(** ** Signals *)

Lemma running_idle p : lifecycle p = Running → status p = Alive ∧ suspended p = [].
Proof.
  unfold lifecycle. destruct (status p); [|done..].
  by destruct (suspended p) as [|[[] ?] ?].
Qed.

(** What a sequence of signals does once [main] has returned. *)
Lemma signals_late sgs p :
  late p → status p = Alive →
  let q := fold_left step (map Signal sgs) p in
  late q ∧ status q = Alive ∧
  calls (st q) = (calls (st p) ++ repeat Stop (length sgs))%list ∧
  stderr (st q) = (stderr (st p) ++ repeat shutdown_notice (length sgs))%list ∧
  fs (st q) = fs (st p) ∧
  suspended q = (suspended p ++ repeat (Stop, k_stop) (length sgs))%list.
Proof.
  revert p. induction sgs as [|sg sgs IH]; intros p Hlate Halive.
  - cbn. by rewrite !app_nil_r.
  - cbn [map fold_left length repeat].
    destruct (late_step p (Signal sg) Hlate Halive) as [(Hlate' & Halive' & _)|(_ & _ & _ & [])].
    destruct (IH _ Hlate' Halive') as (H1 & H2 & Hc & He & Hf & Hs).
    rewrite step_signal_late in H1, H2, Hc, He, Hf, Hs |- * by done.
    cbn [st suspended log add_stderr calls stderr fs] in Hc, He, Hf, Hs.
    rewrite <- app_assoc in Hc, He, Hs. done.
Qed.

(** X7: every signal the running server receives before a [stop()] promise
    settles runs the shutdown listener again: [n] signals write the notice
    [n] times and call [stop()] [n] times, and the process is shutting down;
    the first [stop()] promise to settle ends the process, with code 0 when
    it resolves and 1 when it is rejected, while the other calls are still
    pending. *)
Theorem X7_repeated_signals w evs sgs o :
  lifecycle (run w evs) = Running → sgs ≠ [] →
  let p := run w evs in
  let q := run w (evs ++ map Signal sgs) in
  lifecycle q = ShuttingDown ∧
  count Stop (st q) = length sgs ∧
  calls (st q) = (calls (st p) ++ repeat Stop (length sgs))%list ∧
  stderr (st q) = (stderr (st p) ++ repeat shutdown_notice (length sgs))%list ∧
  status (step q (Settled o)) = Exited (match o with Resolved => 0 | Rejected _ => 1 end) ∧
  length (suspended (step q (Settled o))) = pred (length sgs).
Proof.
  intros Hl Hsgs p q. subst p q. rewrite run_app.
  destruct (running_idle _ Hl) as [Halive Hidle].
  destruct (lifecycle_late w evs) as [Hlate _]; [by left|].
  destruct (signals_late sgs _ Hlate Halive) as (Hlate' & Halive' & Hc & He & _ & Hs).
  rewrite Hidle in Hs. cbn [app] in Hs.
  set (q := fold_left step (map Signal sgs) (run w evs)) in *.
  destruct sgs as [|sg sgs]; [done|]. cbn [length repeat] in *.
  split_and!; try done.
  - unfold lifecycle. by rewrite Halive', Hs.
  - destruct Hlate' as (_ & _ & Hq). destruct (Hq Halive') as (_ & -> & _).
    rewrite Hs. cbn [length]. by rewrite repeat_length.
  - destruct (late_step q (Settled o) Hlate' Halive') as [(_ & _ & _ & Hn)|(_ & _ & _ & Hend)].
    + by rewrite Hs in Hn.
    + destruct o; by destruct Hend as [-> _].
  - destruct q as [s sus stq]. cbn in Hs, Halive'. subst sus stq.
    rewrite step_settled. destruct o as [|e].
    + rewrite k_stop_resolved. cbn. by rewrite repeat_length.
    + rewrite k_stop_rejected. cbn [settle].
      destruct Hlate' as (_ & Hlis & _). cbn in Hlis.
      unfold emit_unhandled. cbn [st].
      destruct (late_listeners s Hlis) as (_ & -> & _).
      cbn. by rewrite repeat_length.
Qed.

Lemma X7_repeated_signals_witness :
  let p := run sessions_world (resolved 4) in
  let q := run sessions_world (resolved 4 ++ map Signal [SIGINT; SIGTERM; SIGINT]) in
  lifecycle q = ShuttingDown ∧
  count Stop (st q) = 3%nat ∧
  calls (st q) = (calls (st p) ++ repeat Stop 3)%list ∧
  stderr (st q) = (stderr (st p) ++ repeat shutdown_notice 3)%list ∧
  status (step q (Settled Resolved)) = Exited 0 ∧
  length (suspended (step q (Settled Resolved))) = 2%nat.
Proof.
  apply (X7_repeated_signals sessions_world (resolved 4) [SIGINT; SIGTERM; SIGINT] Resolved);
    [vm_compute; reflexivity|discriminate].
Defined.

(** X8: a signal that arrives while [main] is validating, initializing or
    starting finds no listener: the process is ended by the signal and its
    state is left as it was, so nothing is written to stderr and nothing is
    cleaned up. *)
Theorem X8_signal_during_startup_is_silent w evs sg :
  lifecycle (run w evs) = Validating ∨ lifecycle (run w evs) = Initializing
  ∨ lifecycle (run w evs) = Starting →
  step (run w evs) (Signal sg) = with_status (Killed sg) (run w evs).
Proof.
  intros Hl.
  destruct (suspended_calls w evs Hl) as (n & _ & _ & Hat & _).
  apply main_at_alive in Hat as (Halive & _ & He).
  unfold step. rewrite Halive. unfold emit_signal.
  by destruct (early_listeners _ He) as (_ & _ & ->).
Qed.

Lemma X8_signal_during_startup_is_silent_witness :
  step (run sessions_world imports_loaded) (Signal SIGTERM)
  = with_status (Killed SIGTERM) (run sessions_world imports_loaded).
Proof.
  apply X8_signal_during_startup_is_silent. right. left. vm_compute. reflexivity.
Defined.

(** ** The two listeners of the module body *)

Lemma alive_listeners w evs :
  status (run w evs) = Alive →
  listeners_for UncaughtException (st (run w evs)) = [UncaughtHandler] ∧
  listeners_for UnhandledRejection (st (run w evs)) = [RejectionHandler].
Proof.
  intros Halive. destruct (run_phase w evs) as [n _ _ Hat|_ _ Hst|tl _ _ _ Hlate].
  - apply main_at_alive in Hat as (_ & _ & He).
    by destruct (early_listeners _ He) as (-> & -> & _).
  - rewrite Halive in Hst. by destruct Hst as [|[]].
  - destruct Hlate as (_ & Hlis & _).
    by destruct (late_listeners _ Hlis) as (-> & -> & _).
Qed.

(** X9: at every moment of every run in which the process is alive, an
    uncaught exception and an unhandled rejection are reported by the
    listeners of the module body: the one writes [Uncaught exception in MCP
    server:], the other [Unhandled rejection in MCP server:], each with the
    error, and the process exits with 1; nothing else changes, in particular
    [stop()] is not called and pending work is dropped. *)
Theorem X9_global_handlers w evs e :
  status (run w evs) = Alive →
  let p := run w evs in
  step p (Uncaught e)
  = {| st := add_stderr ("Uncaught exception in MCP server: " +:+ e) (st p);
       suspended := suspended p; status := Exited 1 |} ∧
  step p (Unhandled e)
  = {| st := add_stderr ("Unhandled rejection in MCP server: " +:+ e) (st p);
       suspended := suspended p; status := Exited 1 |}.
Proof.
  intros Halive p. subst p. destruct (alive_listeners w evs Halive) as [Hu Hr].
  unfold step, emit_unhandled, emit_uncaught. rewrite Halive, Hu, Hr.
  cbn [run_listeners]. by rewrite Halive.
Qed.

Lemma X9_global_handlers_witness :
  let p := run sessions_world (resolved 4 ++ [Signal SIGINT]) in
  step p (Uncaught "write EPIPE")
  = {| st := add_stderr ("Uncaught exception in MCP server: " +:+ "write EPIPE") (st p);
       suspended := suspended p; status := Exited 1 |} ∧
  step p (Unhandled "write EPIPE")
  = {| st := add_stderr ("Unhandled rejection in MCP server: " +:+ "write EPIPE") (st p);
       suspended := suspended p; status := Exited 1 |}.
Proof. apply X9_global_handlers. vm_compute. reflexivity. Defined.

(** ** Starting again *)

(** X12: the validation can be repeated: on the file system a successful
    validation has left, the session directory is still a directory and
    still passes the write test, and a second start validates it again and
    leaves the file system as the first one left it. *)
Theorem X12_validation_repeatable w :
  configured w = true → checks_answer w →
  path_is_directory w = true → probe_writable w = true →
  let p := run w imports_loaded in
  let w' := restarted w p in
  path_is_directory w' = true ∧ probe_writable w' = true ∧
  validated_line w ∈ stderr (st (run w' imports_loaded)) ∧
  fs (st (run w' imports_loaded)) = fs (st p).
Proof.
  intros Hc Ha Hd Hw p w'.
  destruct (run_validated w Hc Ha Hd Hw) as (_ & _ & Hfs). fold p in Hfs.
  assert (Hd' : path_is_directory w' = true).
  { apply bool_decide_eq_true. apply bool_decide_eq_true in Hd.
    unfold w', restarted, session_dir in *. cbn [disk session_dir_env] in *.
    assert (Hne : probe_file w ≠ session_dir w).
    { apply bool_decide_eq_true in Hw as (_ & Hp & _). intros Heq.
      apply Hp. unfold session_dir in Heq. by rewrite Heq. }
    unfold probe_file, session_dir in Hne.
    by rewrite Hfs, lookup_delete_ne, lookup_insert_ne. }
  assert (Hw' : probe_writable w' = true).
  { apply bool_decide_eq_true. apply bool_decide_eq_true in Hw as (? & _ & ?).
    unfold w', restarted, probe_file, session_dir in *. cbn [disk session_dir_env fault] in *.
    split_and!; [done| |done]. by rewrite Hfs, lookup_delete_eq. }
  destruct (run_validated w' Hc Ha Hd' Hw') as (Hlines & _ & Hfs').
  split_and!; [done..| |].
  - apply (list_elem_of_lookup_2 _ 1%nat).
    rewrite <- (lookup_take_lt _ 2) by lia. by rewrite Hlines.
  - rewrite Hfs'. unfold w', restarted, probe_file, session_dir. cbn [disk session_dir_env].
    rewrite Hfs. unfold probe_file, session_dir.
    by rewrite !delete_insert_eq, delete_delete_eq.
Qed.

Lemma X12_validation_repeatable_witness :
  let w := collision_world in
  let p := run w imports_loaded in
  let w' := restarted w p in
  path_is_directory w' = true ∧ probe_writable w' = true ∧
  validated_line w ∈ stderr (st (run w' imports_loaded)) ∧
  fs (st (run w' imports_loaded)) = fs (st p).
Proof.
  apply X12_validation_repeatable; [reflexivity|by split|vm_compute; reflexivity..].
Defined.

(** ** The running server *)








